(** * Training and evaluation orchestration of the ASL hand-landmark classifiers

    A shallow embedding of the orchestration code of the repository:

    - [02_process_kaggle.py] ([KaggleProcessor]),
    - [03_create_splits.py]  ([DatasetCleaner]),
    - [04_train_mlp.py]      ([Trainer.train], [Trainer.evaluate]),
    - [05_train_temporal.py] ([ASLSequenceDataset], [collate_sequences],
      [MultiModelTrainer]).

    Conventions of the embedding.

    - Python floats are embedded as exact rationals ([Q]); comparisons are
      the rational ones and "equal" between computed metrics is [Qeq].
    - A Python exception is a value of [exn]; code that may raise returns
      [exn + A], and code that also writes files threads the directory
      content ([FS]) and returns it next to the result, so that what was
      written before an exception stays visible.
    - The neural networks, the optimiser, the loss and the data loaders are
      external capabilities: they are fields of the classes [Pipeline] and
      [Net]; so are [train_test_split] of scikit-learn ([Sklearn]), the
      Unicode case mapping of [str.lower] ([StrLower]) and the hand detector
      ([Extractor]). *)

From Stdlib Require Import QArith Qfield Qround Lia ZArith String Ascii.
From stdpp Require Import base option list gmap strings sorting vector pretty.

Local Open Scope string_scope.
Local Open Scope list_scope.
Local Open Scope Z_scope.
Local Open Scope nat_scope.

(** ** Exceptions and results *)

Record exn : Type := Exn { exn_class : string; exn_msg : string }.

Definition ZeroDivisionError : exn := Exn "ZeroDivisionError" "division by zero".
Definition ValueError (msg : string) : exn := Exn "ValueError" msg.
Definition IndexError (msg : string) : exn := Exn "IndexError" msg.
Definition KeyError (msg : string) : exn := Exn "KeyError" msg.
Definition FileNotFoundError (path : string) : exn := Exn "FileNotFoundError" path.
Definition RuntimeError (msg : string) : exn := Exn "RuntimeError" msg.

Definition result (A : Type) : Type := (exn + A)%type.

Definition rbind {A B : Type} (c : result A) (k : A -> result B) : result B :=
  match c with
  | inl e => inl e
  | inr a => k a
  end.

Declare Scope result_scope.
Delimit Scope result_scope with result.
Notation "'do' x <- c ; k" := (rbind c (fun x => k))
  (at level 10, x pattern, c at level 100, k at level 200) : result_scope.

(** Python's [q] as a float built from a count. *)
Definition Qnat (n : nat) : Q := inject_Z (Z.of_nat n).

(** ** The external capabilities *)

(** The data side of a training script: what a dataset item is, what a
    batch is and how the loader's [collate_fn] builds a batch from the items
    of one index group.  [b_inputs] is the batch tensor given to the model
    (one entry per sample, so that [size(0)] is its length) and [b_labels]
    the label tensor. *)
Class Pipeline : Type := {
  Item : Type;
  Inp : Type;
  Batch : Type;
  collate : list Item -> result Batch;
  b_inputs : Batch -> list Inp;
  b_labels : Batch -> list nat;
}.

(** The model side.  [Model] is the whole mutable state of a run (weights,
    optimiser and scheduler state, random generator); [Weights] is what
    [state_dict()] snapshots.  [forward training m x] is [model(x)] in
    [model.train()] mode ([training = true]) or [model.eval()] mode.
    [train_loader m] is one iteration over the shuffling [DataLoader] in the
    current state, as the groups of items handed to [collate_fn]. *)
Class Net `{Pipeline} : Type := {
  Model : Type;
  Weights : Type;
  forward : bool -> Model -> list Inp -> result (list (list Q));
  criterion : list (list Q) -> list nat -> result Q;
  optimizer_step : Model -> list Inp -> list nat -> result Model;
  scheduler_step : Model -> Q -> Model;
  state_dict : Model -> Weights;
  load_state_dict : Model -> Weights -> Model;
  num_params : Model -> nat;
  train_loader : Model -> list (list Item);
  val_loader : list (list Item);
  test_loader : list (list Item);
}.

(** ** Files of the output directory *)

(** The entry of a checkpoint that differs between the scripts:
    ['hidden_sizes'] in [04_train_mlp.py], ['model_name'] in
    [05_train_temporal.py].  (The ['optimizer_state_dict'] that
    [04_train_mlp.py] also stores is read back nowhere and is left out.) *)
Inductive CkExtra : Type :=
| ModelName (model_name : string)
| HiddenSizes (hidden_sizes : list nat).

Record Checkpoint (W : Type) : Type := mkCheckpoint {
  ck_epoch : nat;
  ck_model_state_dict : W;
  ck_val_acc : Q;
  ck_extra : CkExtra;
}.
Arguments mkCheckpoint {W}.
Arguments ck_epoch {W}.
Arguments ck_model_state_dict {W}.
Arguments ck_val_acc {W}.
Arguments ck_extra {W}.

Record History : Type := mkHistory {
  train_loss : list Q;
  train_acc : list Q;
  val_loss : list Q;
  val_acc : list Q;
}.

Definition empty_history : History := mkHistory [] [] [] [].

(** One entry of [results] in [run_all].  [test_acc] is [None] for the
    [nan] that [numpy] returns as the mean of an empty array. *)
Record ModelResult : Type := mkModelResult {
  best_val_acc : Q;
  test_acc : option Q;
  params : nat;
}.

Inductive File (W : Type) : Type :=
| CkptFile (c : Checkpoint W)
| HistoryFile (h : History)
| ResultsFile (r : list (string * ModelResult)).
Arguments CkptFile {W}.
Arguments HistoryFile {W}.
Arguments ResultsFile {W}.

(** The output directory: file name to content. *)
Abbreviation FS W := (gmap string (File W)).

(** ** One pass over a loader (both scripts, the same statements) *)

(** [train_loss], [train_correct], [train_total] (and the [val_] ones). *)
Record Totals : Type := mkTotals {
  t_loss : Q;
  t_correct : nat;
  t_total : nat;
}.

Definition zero_totals : Totals := mkTotals 0%Q 0 0.

(** What one batch contributes: [loss.item()], [inputs.size(0)],
    [labels.size(0)] and [predicted.eq(labels).sum().item()]. *)
Record BatchStat : Type := mkBatchStat {
  bs_loss : Q;
  bs_size : nat;
  bs_labels : nat;
  bs_correct : nat;
}.

(** [loss_total += loss.item() * inputs.size(0)];
    [total += labels.size(0)]; [correct += ...]. *)
Definition accumulate (t : Totals) (s : BatchStat) : Totals :=
  {| t_loss := (t_loss t + bs_loss s * Qnat (bs_size s))%Q;
     t_correct := t_correct t + bs_correct s;
     t_total := t_total t + bs_labels s |}.

(** Index of the first largest entry of a row of logits. *)
Fixpoint argmax_from (best : Q) (best_i i : nat) (row : list Q) : nat :=
  match row with
  | [] => best_i
  | x :: row' =>
      if Qlt_le_dec best x then argmax_from x i (S i) row'
      else argmax_from best best_i (S i) row'
  end.

Definition argmax (row : list Q) : result nat :=
  match row with
  | [] => inl (IndexError "max(): Expected reduction dim 1 to have non-zero size")
  | x :: row' => inr (argmax_from x 0 1 row')
  end.

(** [_, predicted = outputs.max(1)] *)
Fixpoint max1 (outputs : list (list Q)) : result (list nat) :=
  match outputs with
  | [] => inr []
  | row :: rest =>
      (do p <- argmax row; do ps <- max1 rest; inr (p :: ps))%result
  end.

(** [predicted.eq(labels).sum().item()] *)
Fixpoint count_eq (predicted labels : list nat) : nat :=
  match predicted, labels with
  | p :: ps, l :: ls => (if Nat.eqb p l then 1 else 0) + count_eq ps ls
  | _, _ => 0
  end.

(** [criterion(outputs, labels)]: the loss of the capability, behind the
    batch-size check that [CrossEntropyLoss] makes first. *)
Definition checked_criterion `{Net} (outputs : list (list Q)) (labels : list nat)
  : result Q :=
  if Nat.eqb (length outputs) (length labels) then criterion outputs labels
  else inl (ValueError "Expected input batch_size to match target batch_size").

Section Passes.
Context `{N : Net}.

(** Body of the training [for] loop over [train_loader]. *)
Definition train_step (m : Model) (b : Batch) : result (Model * BatchStat) :=
  (do outputs <- forward true m (b_inputs b);
   do loss <- checked_criterion outputs (b_labels b);
   do m' <- optimizer_step m (b_inputs b) (b_labels b);
   do predicted <- max1 outputs;
   inr (m', {| bs_loss := loss;
               bs_size := length (b_inputs b);
               bs_labels := length (b_labels b);
               bs_correct := count_eq predicted (b_labels b) |}))%result.

(** Body of the validation loop (under [torch.no_grad()]). *)
Definition eval_step (m : Model) (b : Batch) : result BatchStat :=
  (do outputs <- forward false m (b_inputs b);
   do loss <- checked_criterion outputs (b_labels b);
   do predicted <- max1 outputs;
   inr {| bs_loss := loss;
          bs_size := length (b_inputs b);
          bs_labels := length (b_labels b);
          bs_correct := count_eq predicted (b_labels b) |})%result.

Fixpoint train_pass (m : Model) (t : Totals) (groups : list (list Item))
  : result (Model * Totals) :=
  match groups with
  | [] => inr (m, t)
  | g :: rest =>
      (do b <- collate g;
       do (m', s) <- train_step m b;
       train_pass m' (accumulate t s) rest)%result
  end.

Fixpoint val_pass (m : Model) (t : Totals) (groups : list (list Item))
  : result Totals :=
  match groups with
  | [] => inr t
  | g :: rest =>
      (do b <- collate g;
       do s <- eval_step m b;
       val_pass m (accumulate t s) rest)%result
  end.

(** The per-batch contributions of a pass, in order: a ghost trace of
    [train_pass], used to state what the totals are. *)
Fixpoint train_trace (m : Model) (groups : list (list Item))
  : result (list BatchStat) :=
  match groups with
  | [] => inr []
  | g :: rest =>
      (do b <- collate g;
       do (m', s) <- train_step m b;
       do ss <- train_trace m' rest;
       inr (s :: ss))%result
  end.

Fixpoint val_trace (m : Model) (groups : list (list Item))
  : result (list BatchStat) :=
  match groups with
  | [] => inr []
  | g :: rest =>
      (do b <- collate g;
       do s <- eval_step m b;
       do ss <- val_trace m rest;
       inr (s :: ss))%result
  end.
End Passes.

(** [loss /= total; acc = 100. * correct / total] *)
Definition epoch_metrics (t : Totals) : result (Q * Q) :=
  if Nat.eqb (t_total t) 0 then inl ZeroDivisionError
  else inr ((t_loss t / Qnat (t_total t))%Q,
            (100 * Qnat (t_correct t) / Qnat (t_total t))%Q).

(** ** The epoch loop (lines 112-190 of [04_train_mlp.py], 105-173 of
    [05_train_temporal.py]: the same statements) *)

Section Loop.
Context `{N : Net}.

Record LoopState : Type := mkLoop {
  ls_model : Model;
  ls_history : History;
  ls_best_val_acc : Q;
  ls_epochs_without_improvement : Z;
  ls_files : FS Weights;
}.

(** One training pass, its metrics, one validation pass, its metrics. *)
Definition run_epoch (m : Model) : result (Model * (Q * Q) * (Q * Q)) :=
  (do (m1, t) <- train_pass m zero_totals (train_loader m);
   do tm <- epoch_metrics t;
   do v <- val_pass m1 zero_totals val_loader;
   do vm <- epoch_metrics v;
   inr (m1, tm, vm))%result.

(** [history[...].append(...)] for the four lists. *)
Definition append_history (h : History) (tm vm : Q * Q) : History :=
  {| train_loss := train_loss h ++ [fst tm];
     train_acc := train_acc h ++ [snd tm];
     val_loss := val_loss h ++ [fst vm];
     val_acc := val_acc h ++ [snd vm] |}.

(** The [if val_acc > best_val_acc: ... else: ...] block.  The boolean is
    [true] when the [break] is taken. *)
Definition early_stopping (ckpt_path : string) (extra : CkExtra) (patience : Z)
    (epoch : nat) (st : LoopState) (val_acc_e : Q) : LoopState * bool :=
  if Qlt_le_dec (ls_best_val_acc st) val_acc_e then
    ({| ls_model := ls_model st;
        ls_history := ls_history st;
        ls_best_val_acc := val_acc_e;
        ls_epochs_without_improvement := 0;
        ls_files :=
          <[ckpt_path := CkptFile {| ck_epoch := epoch;
                                     ck_model_state_dict := state_dict (ls_model st);
                                     ck_val_acc := val_acc_e;
                                     ck_extra := extra |}]> (ls_files st) |},
     false)
  else
    let c := (ls_epochs_without_improvement st + 1)%Z in
    ({| ls_model := ls_model st;
        ls_history := ls_history st;
        ls_best_val_acc := ls_best_val_acc st;
        ls_epochs_without_improvement := c;
        ls_files := ls_files st |},
     (patience <=? c)%Z).

(** The body of [for epoch in range(epochs)]. *)
Definition epoch_body (ckpt_path : string) (extra : CkExtra) (patience : Z)
    (epoch : nat) (st : LoopState) : result (LoopState * bool) :=
  (do (m1, tm, vm) <- run_epoch (ls_model st);
   let st1 := {| ls_model := scheduler_step m1 (snd vm);
                 ls_history := append_history (ls_history st) tm vm;
                 ls_best_val_acc := ls_best_val_acc st;
                 ls_epochs_without_improvement := ls_epochs_without_improvement st;
                 ls_files := ls_files st |} in
   inr (early_stopping ckpt_path extra patience epoch st1 (snd vm)))%result.

(** The model as the body of epoch [k] leaves it, in a run that starts
    from [m]: after [k + 1] training passes, each followed by its
    validation pass and scheduler step.  This is the model whose
    [state_dict()] epoch [k] saves when it saves. *)
Fixpoint model_at_epoch (k : nat) (m : Model) : result Model :=
  (do (m1, _, vm) <- run_epoch m;
   let m2 := scheduler_step m1 (snd vm) in
   match k with
   | O => inr m2
   | S k' => model_at_epoch k' m2
   end)%result.

(** [n] is the number of epochs of [range(epochs)] still to run and [epoch]
    the loop variable.  An exception leaves with the files as they are. *)
Fixpoint epochs_loop (ckpt_path : string) (extra : CkExtra) (patience : Z)
    (n epoch : nat) (st : LoopState) : (exn * FS Weights) + LoopState :=
  match n with
  | O => inr st
  | S n' =>
      match epoch_body ckpt_path extra patience epoch st with
      | inl e => inl (e, ls_files st)
      | inr (st', true) => inr st'
      | inr (st', false) => epochs_loop ckpt_path extra patience n' (S epoch) st'
      end
  end.

(** From [history = {...}; best_val_acc = 0] to [return model, history,
    best_val_acc], the history file written on the way out. *)
Definition training_loop (ckpt_path history_path : string) (extra : CkExtra)
    (epochs patience : Z) (model : Model) (fs : FS Weights)
  : result (Model * History * Q) * FS Weights :=
  let st0 := {| ls_model := model;
                ls_history := empty_history;
                ls_best_val_acc := 0;
                ls_epochs_without_improvement := 0;
                ls_files := fs |} in
  match epochs_loop ckpt_path extra patience (Z.to_nat epochs) 0 st0 with
  | inl (e, fs') => (inl e, fs')
  | inr st =>
      (inr (ls_model st, ls_history st, ls_best_val_acc st),
       <[history_path := HistoryFile (ls_history st)]> (ls_files st))
  end.

(** [Trainer.train] of [04_train_mlp.py]; [model] is the freshly built
    [ASLClassifier]. *)
Definition Trainer_train (model : Model) (hidden_sizes : list nat)
    (epochs patience : Z) (fs : FS Weights)
  : result (Model * History * Q) * FS Weights :=
  training_loop "best_model.pth" "history.json" (HiddenSizes hidden_sizes)
    epochs patience model fs.

Definition best_model_path (model_name : string) : string :=
  "best_model_" ++ model_name ++ ".pth".

Definition history_path (model_name : string) : string :=
  "history_" ++ model_name ++ ".json".

(** [MultiModelTrainer.train_model] of [05_train_temporal.py]. *)
Definition train_model (model : Model) (model_name : string)
    (epochs patience : Z) (fs : FS Weights)
  : result (Model * History * Q) * FS Weights :=
  training_loop (best_model_path model_name) (history_path model_name)
    (ModelName model_name) epochs patience model fs.

End Loop.

(** ** Evaluation and the three-model run of [05_train_temporal.py] *)

Section Harness.
Context `{N : Net}.

(** Code that reads and writes the output directory and may raise. *)
Definition fio (A : Type) : Type := FS Weights -> result A * FS Weights.

Definition fio_bind {A B : Type} (c : fio A) (k : A -> fio B) : fio B :=
  fun fs =>
    match c fs with
    | (inl e, fs') => (inl e, fs')
    | (inr a, fs') => k a fs'
    end.

Definition fio_ret {A : Type} (a : A) : fio A := fun fs => (inr a, fs).

Definition write_file (path : string) (f : File Weights) : fio unit :=
  fun fs => (inr tt, <[path := f]> fs).

(** The loop of [evaluate_model] over [test_loader]. *)
Fixpoint test_pass (m : Model) (all_preds all_labels : list nat)
    (groups : list (list Item)) : result (list nat * list nat) :=
  match groups with
  | [] => inr (all_preds, all_labels)
  | g :: rest =>
      (do b <- collate g;
       do outputs <- forward false m (b_inputs b);
       do predicted <- max1 outputs;
       test_pass m (all_preds ++ predicted) (all_labels ++ b_labels b) rest)%result
  end.

(** [(np.array(all_preds) == np.array(all_labels)).mean() * 100]; the mean
    of an empty array is [nan] ([None]).  Arrays of different lengths do not
    compare elementwise: an exception. *)
Definition accuracy (all_preds all_labels : list nat) : result (option Q) :=
  if negb (Nat.eqb (length all_preds) (length all_labels)) then
    inl (ValueError "operands could not be broadcast together")
  else if Nat.eqb (length all_preds) 0 then inr None
  else inr (Some (Qnat (count_eq all_preds all_labels) / Qnat (length all_preds) * 100)%Q).

(** [MultiModelTrainer.evaluate_model]; the model object comes back with
    the checkpoint's weights loaded. *)
Definition evaluate_model (model : Model) (model_name : string)
  : fio (option Q * Model) :=
  fun fs =>
    match fs !! best_model_path model_name with
    | None => (inl (FileNotFoundError (best_model_path model_name)), fs)
    | Some (CkptFile c) =>
        let m := load_state_dict model (ck_model_state_dict c) in
        ((do (ps, ls) <- test_pass m [] [] test_loader;
          do acc <- accuracy ps ls;
          inr (acc, m))%result, fs)
    | Some _ => (inl (KeyError "model_state_dict"), fs)
    end.

(** [results[key] = value] on a dict that keeps insertion order. *)
Fixpoint dict_set {V : Type} (key : string) (value : V) (d : list (string * V))
  : list (string * V) :=
  match d with
  | [] => [(key, value)]
  | (k, v) :: d' =>
      if String.eqb k key then (k, value) :: d' else (k, v) :: dict_set key value d'
  end.

(** One of the three numbered blocks of [run_all]: train, evaluate, record. *)
Definition run_one (model : Model) (model_name : string)
    (results : list (string * ModelResult)) : fio (list (string * ModelResult)) :=
  fio_bind (train_model model model_name 100 15) (fun '(m1, _, best) =>
  fio_bind (evaluate_model m1 model_name) (fun '(test, m2) =>
  fio_ret (dict_set model_name
             {| best_val_acc := best; test_acc := test; params := num_params m2 |}
             results))).

(** [MultiModelTrainer.run_all]; the arguments are the three freshly built
    classifiers.  The returned list is [results] in the order its
    [items()] are printed. *)
Definition run_all (transformer gru tcn : Model) : fio (list (string * ModelResult)) :=
  fio_bind (run_one transformer "transformer" []) (fun results =>
  fio_bind (run_one gru "gru" results) (fun results =>
  fio_bind (run_one tcn "tcn" results) (fun results =>
  fio_bind (write_file "all_models_results.json" (ResultsFile results)) (fun _ =>
  fio_ret results)))).

(** The rows of the summary table printed at the end of [run_all], one
    per item of [results]: model name (printed in upper case), parameters,
    validation accuracy, test accuracy. *)
Definition summary_rows (results : list (string * ModelResult))
  : list (string * nat * Q * option Q) :=
  List.map (fun '(model_name, res) =>
              (model_name, params res, best_val_acc res, test_acc res)) results.

End Harness.

(** ** Batches of [05_train_temporal.py] *)


Section Sequences.
(** Width of one timestep after [landmarks.reshape(len(landmarks), -1)]
    (63 for 21 landmarks of 3 coordinates).  All sequences of a dataset
    share it; the type of rows fixes it. *)
Variable D : nat.

Definition Row : Type := vec Q D.

(** The filler of [padding_value=0.0]: a timestep of [D] zeros. *)
Definition zero_row : Row := vreplicate D 0%Q.

(** An entry of [data['samples']], its landmarks already seen as rows. *)
Record SeqSample : Type := mkSeqSample {
  s_landmarks : list Row;
  s_label : nat;
}.

(** What [ASLSequenceDataset.__getitem__] returns. *)
Definition SeqItem : Type := (list Row * nat * nat)%type.

(** [ASLSequenceDataset.__getitem__]; [reshape(0, -1)] of a sample without
    timesteps raises. *)
Definition getitem (samples : list SeqSample) (idx : nat) : result SeqItem :=
  match samples !! idx with
  | None => inl (IndexError "list index out of range")
  | Some sample =>
      let landmarks := s_landmarks sample in
      if Nat.eqb (length landmarks) 0 then
        inl (RuntimeError "cannot reshape tensor of 0 elements into shape [0, -1]")
      else
        let label := s_label sample in
        let seq_length := length landmarks in
        inr (landmarks, label, seq_length)
  end.

Record SeqBatch : Type := mkSeqBatch {
  sb_sequences : list (list Row);
  sb_labels : list nat;
  sb_lengths : list nat;
}.

(** [out_tensor[i, :length, ...] = tensor] on a slot of the output. *)
Definition write_prefix (tensor slot : list Row) : list Row :=
  tensor ++ drop (length tensor) slot.

(** [torch.nn.utils.rnn.pad_sequence(sequences, batch_first=True,
    padding_value=0.0)]: an output of [max_len] filler rows per sequence,
    each sequence then written over the start of its slot. *)
Definition pad_sequence (sequences : list (list Row)) : result (list (list Row)) :=
  match sequences with
  | [] => inl (RuntimeError "received an empty list of sequences")
  | _ =>
      let max_len := foldr Nat.max 0 (List.map (@length Row) sequences) in
      inr (List.map (fun tensor => write_prefix tensor (replicate max_len zero_row))
             sequences)
  end.

(** [collate_sequences(batch)] *)
Definition collate_sequences (batch : list SeqItem) : result SeqBatch :=
  match batch with
  | [] => inl (ValueError "not enough values to unpack (expected 3, got 0)")
  | _ =>
      let sequences := List.map (fun it => fst (fst it)) batch in
      let labels := List.map (fun it => snd (fst it)) batch in
      let lengths := List.map (fun it => snd it) batch in
      (do padded_sequences <- pad_sequence sequences;
       inr {| sb_sequences := padded_sequences;
              sb_labels := labels;
              sb_lengths := lengths |})%result
  end.

(** The data side of [MultiModelTrainer]: the loaders are built with
    [collate_fn=collate_sequences], and the loops give [sequences] to the
    model and [labels] to the loss. *)
Definition seq_pipeline : Pipeline := {|
  Item := SeqItem;
  Inp := list Row;
  Batch := SeqBatch;
  collate := collate_sequences;
  b_inputs := sb_sequences;
  b_labels := sb_labels;
|}.

(** The part of a padded batch that is real data: the first [lengths[i]]
    rows of every slot. *)
Definition unpadded (b : SeqBatch) : list (list Row) :=
  zip_with (fun slot len => take len slot) (sb_sequences b) (sb_lengths b).

End Sequences.

(** ** Batches of [04_train_mlp.py] *)

(** The default collate of [(X[idx], y[idx])] pairs: two stacked tensors. *)
Definition default_collate (batch : list (list Q * nat)) : result (list (list Q) * list nat) :=
  match batch with
  | [] => inl (IndexError "list index out of range")
  | _ => inr (List.map fst batch, List.map snd batch)
  end.

Definition mlp_pipeline : Pipeline := {|
  Item := (list Q * nat)%type;
  Inp := list Q;
  Batch := (list (list Q) * list nat)%type;
  collate := default_collate;
  b_inputs := fst;
  b_labels := snd;
|}.

(** ** [03_create_splits.py] *)

(** A [numpy] array: its shape and its entries in row-major order. *)
Record ndarray : Type := mkArray {
  shape : list nat;
  data : list Q;
}.

(** Every array has as many entries as its shape says. *)
Definition well_formed (a : ndarray) : Prop :=
  length (data a) = foldr Nat.mul 1 (shape a).

(** [a[0]] *)
Definition getitem0 (a : ndarray) : result ndarray :=
  match shape a with
  | [] => inl (IndexError "too many indices for array")
  | n :: rest =>
      if Nat.eqb n 0 then
        inl (IndexError "index 0 is out of bounds for axis 0 with size 0")
      else inr {| shape := rest; data := take (foldr Nat.mul 1 rest) (data a) |}
  end.

(** [a.flatten()] *)
Definition flatten (a : ndarray) : list Q := data a.

(** A pickled record, as far as [create_splits] reads it: [None] for a
    missing key. *)
Record PickleData : Type := mkPickleData {
  p_landmarks : option ndarray;
  p_source : option string;
}.

(** A [*.pkl] file of a class directory; [None] when it does not unpickle. *)
Record PklFile : Type := mkPklFile {
  pf_name : string;
  pf_content : option PickleData;
}.

Record Sample : Type := mkSample {
  features : list Q;
  landmarks : ndarray;
  label : nat;
  gloss : string;
  file : string;
  source : string;
}.

Definition TARGET_CLASSES : list string :=
  ["a"; "b"; "c"; "d"; "e"; "f"; "g"; "h"; "i"; "j"; "k"; "l"; "m";
   "n"; "o"; "p"; "q"; "r"; "s"; "t"; "u"; "v"; "w"; "x"; "y"; "z";
   "zero"; "one"; "two"; "three"; "four"; "five"; "six"; "seven"; "eight"; "nine"].

Fixpoint index_of (key : string) (l : list string) : option nat :=
  match l with
  | [] => None
  | x :: l' => if String.eqb x key then Some 0 else S <$> index_of key l'
  end.

(** [{label: idx for idx, label in enumerate(sorted(TARGET_CLASSES))}] *)
Definition label_to_idx (key : string) : option nat :=
  index_of key (merge_sort String.le TARGET_CLASSES).

(** [str.lower()], a builtin of Python: the Unicode case mapping behind it
    is not modelled, the function is a capability.  (It is not the ASCII
    one: it also maps U+212A, the Kelvin sign, to [k].) *)
Class StrLower : Type := {
  str_lower : string -> string;
}.

(** What [str.lower()] does on ASCII strings: the letters [A]-[Z] go to
    [a]-[z], every other character stays. *)
Definition lower_ascii (c : ascii) : ascii :=
  let n := nat_of_ascii c in
  if (Nat.leb 65 n && Nat.leb n 90)%bool then ascii_of_nat (n + 32) else c.

Fixpoint lower (s : string) : string :=
  match s with
  | EmptyString => EmptyString
  | String c s' => String (lower_ascii c) (lower s')
  end.

(** The body of the [try] for one [pkl_file] of the class [gloss_]. *)
Definition load_sample (gloss_ : string) (label_ : nat) (pkl_file : PklFile)
  : result Sample :=
  match pf_content pkl_file with
  | None => inl (Exn "UnpicklingError" (pf_name pkl_file))
  | Some data_ =>
      match p_landmarks data_ with
      | None => inl (KeyError "landmarks")
      | Some landmarks0 =>
          (do landmarks1 <-
             (if Nat.eqb (length (shape landmarks0)) 3 then getitem0 landmarks0
              else inr landmarks0);
           let features_ := flatten landmarks1 in
           inr {| features := features_;
                  landmarks := landmarks1;
                  label := label_;
                  gloss := gloss_;
                  file := pf_name pkl_file;
                  source := default "unknown" (p_source data_) |})%result
      end
  end.

(** [for pkl_file in sign_dir.glob('*.pkl'): try: ... except Exception: print] *)
Fixpoint load_files (gloss_ : string) (label_ : nat) (files : list PklFile)
    (all_samples : list Sample) : list Sample :=
  match files with
  | [] => all_samples
  | pkl_file :: rest =>
      match load_sample gloss_ label_ pkl_file with
      | inr sample => load_files gloss_ label_ rest (all_samples ++ [sample])
      | inl _ => load_files gloss_ label_ rest all_samples
      end
  end.

(** The loop over [sorted(self.output_dir.iterdir())]; [dirs] is that
    listing, the sub-directories with their [*.pkl] files. *)
Fixpoint load_dirs `{StrLower} (dirs : list (string * list PklFile))
    (all_samples : list Sample) : list Sample :=
  match dirs with
  | [] => all_samples
  | (name, files) :: rest =>
      let gloss_ := str_lower name in
      match label_to_idx gloss_ with
      | None => load_dirs rest all_samples
      | Some label_ => load_dirs rest (load_files gloss_ label_ files all_samples)
      end
  end.

(** [sklearn.model_selection.train_test_split(arrays, test_size=...,
    stratify=..., random_state=...)], an external library function. *)
Class Sklearn : Type := {
  train_test_split :
    list nat -> Q -> list nat -> Z -> result (list nat * list nat);
}.

(** [label_counts[label] += 1] over a [defaultdict(int)] *)
Definition count_labels (labels : list nat) : gmap nat nat :=
  foldl (fun counts l => <[l := default 0 (counts !! l) + 1]> counts) ∅ labels.

(** [min(d.values())] *)
Definition min_values (d : gmap nat nat) : result nat :=
  match (map_to_list d).*2 with
  | [] => inl (ValueError "min() arg is an empty sequence")
  | v :: vs => inr (foldr Nat.min v vs)
  end.

(** [[xs[i] for i in idx]] *)
Fixpoint select {A : Type} (xs : list A) (idx : list nat) : result (list A) :=
  match idx with
  | [] => inr []
  | i :: rest =>
      match xs !! i with
      | None => inl (IndexError "list index out of range")
      | Some x => (do ys <- select xs rest; inr (x :: ys))%result
      end
  end.

Record Splits : Type := mkSplits {
  train : list Sample;
  val : list Sample;
  test : list Sample;
}.

Record Metadata : Type := mkMetadata {
  md_num_classes : nat;
  md_num_features : nat;
  md_splits : nat * nat * nat;
  md_ratios : Q * Q * Q;
}.

(** [np.array([...])] over a list of arrays: they are stacked along a new
    first axis when their shapes agree and refused when they do not (the
    message of [numpy] goes on with the shape it detected). *)
Definition np_array (arrays : list ndarray) : result ndarray :=
  match arrays with
  | [] => inr {| shape := [0]; data := [] |}
  | a :: rest =>
      if forallb (fun b => bool_decide (shape b = shape a)) rest then
        inr {| shape := length arrays :: shape a;
               data := concat (List.map data arrays) |}
      else
        inl (ValueError
               ("setting an array element with a sequence. "
                ++ "The requested array has an inhomogeneous shape"))
  end.

(** The arrays pickled with one split (lines 159-161): [X], stacked from
    the feature vectors, and [landmarks]. *)
Definition split_arrays (split_data : list Sample) : result (ndarray * ndarray) :=
  (do X <- np_array (List.map (fun s => {| shape := [length (features s)];
                                           data := features s |}) split_data);
   do landmarks_ <- np_array (List.map landmarks split_data);
   inr (X, landmarks_))%result.

Section Splitting.
Context `{L : StrLower} `{SK : Sklearn}.

(** Lines 109-138: the minimum count (only printed), then the two calls of
    [train_test_split].  Returns [(train_idx, val_idx, test_idx)]. *)
Definition split_indices (all_labels : list nat)
    (train_ratio val_ratio test_ratio : Q) (random_state : Z)
  : result (list nat * list nat * list nat) :=
  (do min_count <- min_values (count_labels all_labels);
   let X_indices := seq 0 (length all_labels) in
   do (train_val_idx, test_idx) <-
     train_test_split X_indices test_ratio all_labels random_state;
   do train_val_labels <- select all_labels train_val_idx;
   do val_relative_size <-
     (if Qeq_bool (train_ratio + val_ratio) 0 then inl ZeroDivisionError
      else inr (val_ratio / (train_ratio + val_ratio))%Q);
   do (train_idx, val_idx) <-
     train_test_split train_val_idx val_relative_size train_val_labels random_state;
   inr (train_idx, val_idx, test_idx))%result.

(** The per-split [min(class_counts.values())] of the closing report. *)
Definition report_split (split_data : list Sample) : result nat :=
  min_values (count_labels (List.map label split_data)).

(** [DatasetCleaner.create_splits]; [dirs] is the content of
    [self.output_dir].  Each pickled split file holds the samples of its
    split, as returned here, next to the arrays stacked from them;
    [metadata.json] holds the metadata. *)
Definition create_splits (dirs : list (string * list PklFile))
    (train_ratio val_ratio test_ratio : Q) (random_state : Z)
  : result (Splits * Metadata) :=
  let all_samples := load_dirs dirs [] in
  let all_labels := List.map label all_samples in
  (do (train_idx, val_idx, test_idx) <-
     split_indices all_labels train_ratio val_ratio test_ratio random_state;
   do train_ <- select all_samples train_idx;
   do val_ <- select all_samples val_idx;
   do test_ <- select all_samples test_idx;
   let splits := {| train := train_; val := val_; test := test_ |} in
   do _ <- split_arrays train_;
   do _ <- split_arrays val_;
   do _ <- split_arrays test_;
   let metadata :=
     {| md_num_classes := length TARGET_CLASSES;
        md_num_features := 63;
        md_splits := (length train_, length val_, length test_);
        md_ratios := (train_ratio, val_ratio, test_ratio) |} in
   do _ <- report_split train_;
   do _ <- report_split val_;
   do _ <- report_split test_;
   inr (splits, metadata))%result.

End Splitting.

(** ** Aggregates over the batches of a pass *)

Fixpoint sumQ (l : list Q) : Q :=
  match l with
  | [] => 0%Q
  | x :: l' => (x + sumQ l')%Q
  end.

(** Sum of [loss * batch size] over the batches. *)
Definition sum_loss (ss : list BatchStat) : Q :=
  sumQ (List.map (fun s => bs_loss s * Qnat (bs_size s))%Q ss).

Definition sum_correct (ss : list BatchStat) : nat :=
  sum_list (List.map bs_correct ss).

Definition sum_labels (ss : list BatchStat) : nat :=
  sum_list (List.map bs_labels ss).

(** Accuracy of one batch, in percent. *)
Definition batch_acc (s : BatchStat) : Q :=
  (100 * Qnat (bs_correct s) / Qnat (bs_labels s))%Q.

(** Mean of per-batch values weighted by the batch sizes. *)
Definition weighted_mean (vs : list Q) (ns : list nat) : Q :=
  (sumQ (zip_with (fun v n => v * Qnat n)%Q vs ns) / Qnat (sum_list ns))%Q.

(** Plain mean of per-batch values. *)
Definition simple_mean (vs : list Q) : Q :=
  (sumQ vs / Qnat (length vs))%Q.

(** The per-batch values that are 1 on batch [i] and 0 elsewhere. *)
Definition indicator (i k : nat) : list Q := <[i := 1%Q]> (replicate k 0%Q).

(** A batch whose input and label tensors have the same, non-zero, first
    dimension. *)
Definition regular (s : BatchStat) : Prop :=
  bs_size s = bs_labels s /\ 0 < bs_labels s.

(** ** What the loop promises about the checkpoint file and its length *)

(** The checkpoint at [ckpt_path] after a run that returned [hist] and
    [best], the directory going from [fs] to [fs']. *)
Definition best_checkpoint_kept {W : Type} (ckpt_path : string) (fs fs' : FS W)
    (hist : History) (best : Q) : Prop :=
  ((exists v, v ∈ val_acc hist /\ (0 < v)%Q) ->
   exists c : Checkpoint W,
     fs' !! ckpt_path = Some (CkptFile c) /\
     val_acc hist !! ck_epoch c = Some (ck_val_acc c) /\
     best = ck_val_acc c /\
     (forall u, u ∈ val_acc hist -> (u <= ck_val_acc c)%Q) /\
     (forall i u, i < ck_epoch c -> val_acc hist !! i = Some u ->
                  (u < ck_val_acc c)%Q)) /\
  ((forall v, v ∈ val_acc hist -> (v <= 0)%Q) ->
   fs' !! ckpt_path = fs !! ckpt_path /\ best = 0%Q).

(** [c] is the checkpoint that epoch [E] of a run from [model] saves when
    its validation accuracy [v] is a new best value: the epoch number, the
    weights the model has at the end of that epoch, the accuracy and the
    entry of the script. *)
Definition checkpoint_of_epoch `{N : Net} (extra : CkExtra) (model : Model)
    (E : nat) (v : Q) (c : Checkpoint Weights) : Prop :=
  exists m_E : Model,
    model_at_epoch E model = inr m_E /\
    c = {| ck_epoch := E;
           ck_model_state_dict := state_dict m_E;
           ck_val_acc := v;
           ck_extra := extra |}.

(** The checkpoint file after a run from [model] that returned [hist] and
    [best]: the checkpoint of the first epoch that reached the largest
    validation accuracy, whole, when some accuracy is above 0; the file as
    it was, when none is. *)
Definition first_maximum_checkpoint `{N : Net} (ckpt_path : string)
    (extra : CkExtra) (model : Model) (fs fs' : FS Weights)
    (hist : History) (best : Q) : Prop :=
  ((exists v, v ∈ val_acc hist /\ (0 < v)%Q) ->
   exists (E : nat) (v : Q) (c : Checkpoint Weights),
     val_acc hist !! E = Some v /\
     (forall u, u ∈ val_acc hist -> (u <= v)%Q) /\
     (forall i u, i < E -> val_acc hist !! i = Some u -> (u < v)%Q) /\
     checkpoint_of_epoch extra model E v c /\
     fs' !! ckpt_path = Some (CkptFile c) /\
     best = v) /\
  ((forall v, v ∈ val_acc hist -> (v <= 0)%Q) ->
   fs' !! ckpt_path = fs !! ckpt_path /\ best = 0%Q).

(** Epoch [E] of [hist] is the last one whose validation accuracy [v] set
    a new best value. *)
Definition last_improvement (hist : History) (E : nat) (v : Q) : Prop :=
  val_acc hist !! E = Some v /\
  (0 < v)%Q /\
  (forall i u, i < E -> val_acc hist !! i = Some u -> (u < v)%Q) /\
  (forall j u, E < j -> val_acc hist !! j = Some u -> (u <= v)%Q).

(** ** Reading the lengths of a batch *)

(** The results of the validation step depend only on the part of the
    batch that is real data: two batches with the same labels, the same
    lengths and the same rows below each length give the same result. *)
Definition depends_only_on_unpadded {D : nat} `{N : @Net (seq_pipeline D)}
    (m : Model) : Prop :=
  forall b1 b2 : SeqBatch D,
    sb_labels D b1 = sb_labels D b2 ->
    sb_lengths D b1 = sb_lengths D b2 ->
    unpadded D b1 = unpadded D b2 ->
    @eval_step (seq_pipeline D) N m b1 = @eval_step (seq_pipeline D) N m b2.

(** ** Ranking of the comparison table *)

(** [r1] may stand before [r2] in a table ranked by test accuracy, the
    smaller parameter count first among equal accuracies. *)
Definition ranks_before (r1 r2 : ModelResult) : Prop :=
  match test_acc r1, test_acc r2 with
  | Some a1, Some a2 =>
      (a2 < a1)%Q \/ ((a1 == a2)%Q /\ params r1 <= params r2)
  | _, _ => False
  end.

Fixpoint ranked (rows : list (string * ModelResult)) : Prop :=
  match rows with
  | r1 :: ((r2 :: _) as rest) => ranks_before (snd r1) (snd r2) /\ ranked rest
  | _ => True
  end.

(** ** What is asked of the split *)



(** ** A scripted classifier, to run the loops on concrete data *)

(** The state of the scripted two-class model is the number of optimiser
    steps taken.  A sample is a script: its [k]-th entry is the score of
    class 1 against class 0 after [k + 1] steps. *)
Definition scripted_logits (m : nat) (x : list Q) : list Q :=
  let v := nth (m - 1) x (-1)%Q in [(- v)%Q; v].

Definition scripted_sample_a : list Q * nat := ([1; 1; 1; -1]%Q, 1).
Definition scripted_sample_b : list Q * nat := ([-1; 1; 1; -1]%Q, 1).

(** [val_items] is the validation (and test) set, served as one batch. *)
Definition scripted_mlp (val_items : list (list Q * nat)) : @Net mlp_pipeline :=
  @Build_Net mlp_pipeline
    nat                                               (* Model *)
    nat                                               (* Weights *)
    (fun _ m xs => inr (List.map (scripted_logits m) xs))  (* forward *)
    (fun _ _ => inr (1 # 2)%Q)                        (* criterion *)
    (fun m _ _ => inr (S m))                          (* optimizer_step *)
    (fun m _ => m)                                    (* scheduler_step *)
    (fun m => m)                                      (* state_dict *)
    (fun _ w => w)                                    (* load_state_dict *)
    (fun _ => 10)                                     (* num_params *)
    (fun _ => [[scripted_sample_a]])                  (* train_loader *)
    [val_items]                                       (* val_loader *)
    [val_items].                                      (* test_loader *)

Definition scripted_ab : @Net mlp_pipeline :=
  scripted_mlp [scripted_sample_a; scripted_sample_b].

(** A validation sample that the scripted model never gets right. *)
Definition scripted_sample_never : list Q * nat := ([-1; -1]%Q, 1).

Definition scripted_never : @Net mlp_pipeline :=
  scripted_mlp [scripted_sample_never].

(** ** Three small sequence classifiers, to run the harness on concrete data *)

(** Sequences of one feature per timestep, two classes.  A model is a kind
    and a step counter: kind 0 always answers class 0, kind 1 reads the
    score of class 1 off the last timestep it is given, kind 2 always
    answers class 1, and any other kind raises in its forward pass. *)
Definition last_score (sequence : list (Row 1)) : Q :=
  match last sequence with
  | Some r => r !!! 0%fin
  | None => 0%Q
  end.

Definition kind_forward (m : nat * nat) (xs : list (list (Row 1)))
  : result (list (list Q)) :=
  match fst m with
  | 0 => inr (List.map (fun _ => [1; 0]%Q) xs)
  | 1 => inr (List.map (fun x => [- last_score x; last_score x]%Q) xs)
  | 2 => inr (List.map (fun _ => [0; 1]%Q) xs)
  | _ => inl (RuntimeError "forward failed")
  end.

Definition item_short_0 : SeqItem 1 := ([ [# (-1)%Q] ], 0, 1).
Definition item_short_1 : SeqItem 1 := ([ [# 1%Q] ], 1, 1).
Definition item_long_1 : SeqItem 1 := ([ [# (-1)%Q]; [# 1%Q] ], 1, 2).

Definition kind_net : @Net (seq_pipeline 1) :=
  @Build_Net (seq_pipeline 1)
    (nat * nat)%type                                  (* Model *)
    (nat * nat)%type                                  (* Weights *)
    (fun _ m xs => kind_forward m xs)                 (* forward *)
    (fun _ _ => inr (1 # 2)%Q)                        (* criterion *)
    (fun m _ _ => inr (fst m, S (snd m)))             (* optimizer_step *)
    (fun m _ => m)                                    (* scheduler_step *)
    (fun m => m)                                      (* state_dict *)
    (fun _ w => w)                                    (* load_state_dict *)
    (fun m => 1000 * S (fst m))                       (* num_params *)
    (fun _ => [[item_short_0; item_short_1]])         (* train_loader *)
    [[item_short_0; item_short_1]; [item_long_1]]     (* val_loader *)
    [[item_short_0; item_short_1]; [item_long_1]].    (* test_loader *)

(** ** A stand-in for [train_test_split], to run [create_splits] on
    concrete data *)

(** The class-count check that the stratified splitter of the library
    makes first (a class of the [stratify] labels with a single member is
    refused with a [ValueError]; the wording of its message varies with the
    version of the library), then an unshuffled cut that puts the last
    [ceil(test_size * n)] entries in the test part. *)
Definition cut_train_test_split (arrays : list nat) (test_size : Q)
    (stratify : list nat) (random_state : Z) : result (list nat * list nat) :=
  match min_values (count_labels stratify) with
  | inl e => inl e
  | inr least =>
      if Nat.ltb least 2 then
        inl (ValueError
               ("The least populated class in y has only 1 member, which is too few. "
                ++ "The minimum number of groups for any class cannot be less than 2."))
      else
        let n := length arrays in
        let n_test := Z.to_nat (Qceiling (test_size * Qnat n)) in
        let n_train := n - n_test in
        if (Nat.eqb n_train 0 || Nat.eqb n_test 0)%bool then
          inl (ValueError "the resulting train set will be empty")
        else inr (take n_train arrays, drop n_train arrays)
  end.

Definition cut_sklearn : Sklearn :=
  {| train_test_split := cut_train_test_split |}.

(** [str.lower()] as it is on ASCII strings, for directories with ASCII
    names. *)
Definition ascii_names : StrLower :=
  {| str_lower := lower |}.

(** A one-frame record of 21 landmarks, all coordinates [x]. *)
Definition frame_record (name : string) (x : Q) : PklFile :=
  {| pf_name := name;
     pf_content :=
       Some {| p_landmarks := Some {| shape := [1; 21; 3]; data := replicate 63 x |};
               p_source := Some "kaggle_asl_alphabet" |} |}.

(** A two-frame record: 63 coordinates [x], then 63 coordinates [y]. *)
Definition two_frame_record (name : string) (x y : Q) : PklFile :=
  {| pf_name := name;
     pf_content :=
       Some {| p_landmarks :=
                 Some {| shape := [2; 21; 3];
                         data := replicate 63 x ++ replicate 63 y |};
               p_source := None |} |}.

Definition class_files (prefix : string) (n : nat) : list PklFile :=
  List.map (fun i => frame_record (prefix ++ "_" ++ pretty i ++ ".pkl") (Qnat i)) (seq 0 n).

(** Two classes of ten records each. *)
Definition two_classes : list (string * list PklFile) :=
  [("A", class_files "kaggle_a" 10); ("B", class_files "kaggle_b" 10)].


(** ** Further notions used to state properties *)

(** A percentage. *)
Definition percent (a : Q) : Prop := (0 <= a)%Q /\ (a <= 100)%Q.

(** ** Fetching a batch from the sequence dataset *)

Section Fetching.
Variable D : nat.



End Fetching.

(** ** [Trainer.evaluate] of [04_train_mlp.py] *)

(** The loop over [zip(all_preds, all_labels)] that fills [class_correct]
    and [class_total]; [idx_to_label] is [metadata['idx_to_label']], read
    at [str(label)]. *)
Fixpoint tally (idx_to_label : nat -> option string) (pairs : list (nat * nat))
    (class_correct class_total : gmap string nat)
  : result (gmap string nat * gmap string nat) :=
  match pairs with
  | [] => inr (class_correct, class_total)
  | (pred, label_) :: rest =>
      match idx_to_label label_ with
      | None => inl (KeyError (pretty label_))
      | Some label_name =>
          let class_total1 :=
            match class_total !! label_name with
            | None => <[label_name := 0]> class_total
            | Some _ => class_total
            end in
          let class_correct1 :=
            match class_total !! label_name with
            | None => <[label_name := 0]> class_correct
            | Some _ => class_correct
            end in
          let class_total2 :=
            <[label_name := default 0 (class_total1 !! label_name) + 1]> class_total1 in
          let class_correct2 :=
            if Nat.eqb pred label_ then
              <[label_name := default 0 (class_correct1 !! label_name) + 1]>
                class_correct1
            else class_correct1 in
          tally idx_to_label rest class_correct2 class_total2
      end
  end.

(** The lines printed by [for label_name in sorted(class_total.keys())]:
    the name, [class_correct[label_name]] and [class_total[label_name]]. *)
Definition class_report (class_correct class_total : gmap string nat)
  : list (string * nat * nat) :=
  List.map (fun label_name =>
              (label_name,
               default 0 (class_correct !! label_name),
               default 0 (class_total !! label_name)))
    (merge_sort String.le (map_to_list class_total).*1).

Section TrainerEvaluate.
Context `{N : Net}.

(** [Trainer.evaluate]; [new_model hidden_sizes] is the classifier built
    from the sizes found in the checkpoint.  Returns the accuracy and the
    per-class lines it printed. *)
Definition Trainer_evaluate (new_model : list nat -> Model)
    (idx_to_label : nat -> option string) (fs : FS Weights)
  : result (option Q * list (string * nat * nat)) :=
  match fs !! "best_model.pth" with
  | None => inl (FileNotFoundError "best_model.pth")
  | Some (CkptFile checkpoint) =>
      let hidden_sizes :=
        match ck_extra checkpoint with
        | HiddenSizes hs => hs
        | ModelName _ => [256; 128; 64]
        end in
      let model := load_state_dict (new_model hidden_sizes)
                     (ck_model_state_dict checkpoint) in
      (do (all_preds, all_labels) <- test_pass model [] [] test_loader;
       do accuracy_ <- accuracy all_preds all_labels;
       do (class_correct, class_total) <-
         tally idx_to_label (zip all_preds all_labels) ∅ ∅;
       inr (accuracy_, class_report class_correct class_total))%result
  | Some _ => inl (KeyError "model_state_dict")
  end.

End TrainerEvaluate.

(** Sum of the values of a dict. *)
Definition sum_values (d : gmap string nat) : nat := sum_list (map_to_list d).*2.

(** Number of pairs whose two components agree. *)
Definition count_agree (pairs : list (nat * nat)) : nat :=
  length (filter (fun pl => fst pl = snd pl) pairs).

(** ** [skip_cleaning] and [run] of [03_create_splits.py] *)

Record CleanStats : Type := mkCleanStats {
  kept_classes : list string;
  kept_samples : nat;
}.

(** [DatasetCleaner.skip_cleaning]: one class per directory, one sample
    per [*.pkl] file, whatever the name and the content. *)
Definition skip_cleaning `{StrLower} (dirs : list (string * list PklFile))
  : CleanStats :=
  foldl (fun stats sign_dir =>
           {| kept_classes := kept_classes stats ++ [str_lower (fst sign_dir)];
              kept_samples := kept_samples stats + length (snd sign_dir) |})
    (mkCleanStats [] 0) dirs.

(** [DatasetCleaner.run]: [create_splits] with its default arguments. *)
Definition DatasetCleaner_run `{StrLower} `{Sklearn}
    (dirs : list (string * list PklFile))
  : result (CleanStats * Splits * Metadata) :=
  let clean_stats := skip_cleaning dirs in
  (do (splits, metadata) <- create_splits dirs (7 # 10) (15 # 100) (15 # 100) 42;
   inr (clean_stats, splits, metadata))%result.

(** ** [02_process_kaggle.py] *)

(** The landmark extractor (image reading and hand detection), an
    external capability: the landmarks of the first detected hand as
    [(x, y, z)] triples with the handedness score, or [None] when the
    image cannot be read or shows no hand. *)
Class Extractor : Type := {
  Image : Type;
  hands_process : Image -> option (list (Q * Q * Q) * Q);
}.




(** [np.array([[lm.x, lm.y, lm.z] for lm in ...])] *)
Definition landmarks_array (lms : list (Q * Q * Q)) : ndarray :=
  {| shape := [length lms; 3];
     data := concat (List.map (fun lm => [fst (fst lm); snd (fst lm); snd lm]) lms) |}.

(** [a.reshape(1, 21, 3)] *)
Definition reshape_1_21_3 (a : ndarray) : result ndarray :=
  if Nat.eqb (length (data a)) 63 then inr {| shape := [1; 21; 3]; data := data a |}
  else inl (ValueError ("cannot reshape array of size " ++ pretty (length (data a))
                        ++ " into shape (1,21,3)")).

(** [KaggleProcessor.process_image]: the landmarks and the confidence. *)
Definition process_image `{Extractor} (image : Image) : result (option (ndarray * Q)) :=
  match hands_process image with
  | None => inr None
  | Some (lms, score) =>
      (do a <- reshape_1_21_3 (landmarks_array lms); inr (Some (a, score)))%result
  end.

(** The record pickled for one image. *)
Record KaggleData : Type := mkKaggleData {
  kd_landmarks : ndarray;
  kd_gloss : string;
  kd_video_id : string;
  kd_confidence : Q;
  kd_source : string;
  kd_is_static : bool;
}.

(** What [create_splits] finds when it unpickles such a record. *)
Definition as_pickle (d : KaggleData) : PickleData :=
  {| p_landmarks := Some (kd_landmarks d); p_source := Some (kd_source d) |}.

(** [k] zeros. *)
Fixpoint zeros (k : nat) : string :=
  match k with
  | 0 => EmptyString
  | S k' => String "0" (zeros k')
  end.

(** [f"{n:04d}"]: the decimal digits, padded with zeros to four places. *)
Definition fmt04 (n : nat) : string :=
  let s := pretty n in
  zeros (4 - String.length s) ++ s.

Definition pkl_name (gloss_ : string) (processed : nat) : string :=
  "kaggle_" ++ gloss_ ++ "_" ++ fmt04 processed ++ ".pkl".

(** [l[:k]] *)
Definition slice_to {A : Type} (k : Z) (l : list A) : list A :=
  take (Z.to_nat (if (k <? 0)%Z then Z.max 0 (Z.of_nat (length l) + k) else k)) l.

Section Processor.
Context `{L : StrLower} `{E : Extractor}.

(** The loop over the images of one class ([process_alphabet] and
    [process_digits] have the same loop); [class_dir] is the content of
    the output directory of the class. *)
Fixpoint process_images (gloss_ source_ id_prefix : string) (max_per_class : Z)
    (images : list Image) (processed : nat) (class_dir : gmap string KaggleData)
  : result nat * gmap string KaggleData :=
  match images with
  | [] => (inr processed, class_dir)
  | img_path :: rest =>
      if (max_per_class <=? Z.of_nat processed)%Z then (inr processed, class_dir)
      else
        match process_image img_path with
        | inl e => (inl e, class_dir)
        | inr None =>
            process_images gloss_ source_ id_prefix max_per_class rest processed class_dir
        | inr (Some (lm, confidence)) =>
            let data_ := {| kd_landmarks := lm;
                            kd_gloss := gloss_;
                            kd_video_id := id_prefix ++ gloss_ ++ "_" ++ fmt04 processed;
                            kd_confidence := confidence;
                            kd_source := source_;
                            kd_is_static := true |} in
            process_images gloss_ source_ id_prefix max_per_class rest (S processed)
              (<[pkl_name gloss_ processed := data_]> class_dir)
        end
  end.

(** One class: the old [*.pkl] files are removed, at most
    [2 * max_per_class] images are tried. *)
Definition process_class (gloss_ source_ id_prefix : string) (max_per_class : Z)
    (images : list Image) : result nat * gmap string KaggleData :=
  process_images gloss_ source_ id_prefix max_per_class
    (slice_to (max_per_class * 2) images) 0 ∅.






End Processor.

(** What the record with the number [k] of the class [gloss_] holds. *)
Definition kaggle_record (gloss_ source_ id_prefix : string) (k : nat)
    (d : KaggleData) : Prop :=
  kd_gloss d = gloss_ /\ kd_source d = source_ /\ kd_is_static d = true /\
  kd_video_id d = (id_prefix ++ gloss_ ++ "_" ++ fmt04 k)%string /\
  shape (kd_landmarks d) = [1; 21; 3] /\
  length (data (kd_landmarks d)) = 63.


(** The files of one class directory as [create_splits] lists them. *)
Definition class_listing (class_dir : gmap string KaggleData) : list PklFile :=
  List.map (fun kv => {| pf_name := fst kv; pf_content := Some (as_pickle (snd kv)) |})
    (map_to_list class_dir).

(** ** A scripted extractor, to run the processor on concrete data *)

(** An image is a number: no hand is found in image 0, a hand with only 20
    landmarks in image 99, and a full hand of 21 landmarks, all at
    [(n, 0, 0)], in any other image [n]. *)
Definition scripted_extractor : Extractor :=
  {| Image := nat;
     hands_process := fun n =>
       if Nat.eqb n 0 then None
       else Some (replicate (if Nat.eqb n 99 then 20 else 21)
                    (inject_Z (Z.of_nat n), 0%Q, 0%Q), 1%Q) |}.



(** * Properties *)

(** ** Size-weighted epoch metrics *)

Lemma Qnat_plus (a b : nat) : (Qnat (a + b) == Qnat a + Qnat b)%Q.
Proof. unfold Qnat. rewrite Nat2Z.inj_add, inject_Z_plus. reflexivity. Qed.

Lemma Qnat_mult (a b : nat) : (Qnat (a * b) == Qnat a * Qnat b)%Q.
Proof. unfold Qnat. rewrite Nat2Z.inj_mul, inject_Z_mult. reflexivity. Qed.

Lemma Qnat_inj (a b : nat) : (Qnat a == Qnat b)%Q -> a = b.
Proof. unfold Qnat. intros E. apply Nat2Z.inj. apply inject_Z_injective. exact E. Qed.

Lemma Qnat_nonzero (a : nat) : a <> 0 -> ~ (Qnat a == 0)%Q.
Proof. intros Ha E. apply Ha. apply Qnat_inj. exact E. Qed.

Lemma accumulate_all (ss : list BatchStat) (t : Totals) :
  (t_loss (foldl accumulate t ss) == t_loss t + sum_loss ss)%Q /\
  t_correct (foldl accumulate t ss) = t_correct t + sum_correct ss /\
  t_total (foldl accumulate t ss) = t_total t + sum_labels ss.
Proof.
  revert t. induction ss as [|s ss IH]; intros t.
  - unfold sum_loss, sum_correct, sum_labels. simpl. split; [ring | split; lia].
  - destruct (IH (accumulate t s)) as (IHl & IHc & IHt).
    change (foldl accumulate t (s :: ss)) with (foldl accumulate (accumulate t s) ss).
    rewrite IHl, IHc, IHt.
    unfold sum_loss, sum_correct, sum_labels. simpl. split; [ring | split; lia].
Qed.

Section PassTraces.
Context `{N : Net}.

Lemma train_pass_trace (groups : list (list Item)) (m m' : Model) (t t' : Totals) :
  train_pass m t groups = inr (m', t') ->
  exists ss, train_trace m groups = inr ss /\ t' = foldl accumulate t ss.
Proof.
  revert m t. induction groups as [|g rest IH]; intros m t Hp; simpl in Hp.
  - injection Hp as <- <-. exists []. split; reflexivity.
  - simpl. destruct (collate g) as [e|b]; simpl in *; [discriminate|].
    destruct (train_step m b) as [e|[m1 s]]; simpl in *; [discriminate|].
    destruct (IH _ _ Hp) as (ss & Htr & ->).
    exists (s :: ss). rewrite Htr. split; reflexivity.
Qed.

Lemma val_pass_trace (groups : list (list Item)) (m : Model) (t t' : Totals) :
  val_pass m t groups = inr t' ->
  exists ss, val_trace m groups = inr ss /\ t' = foldl accumulate t ss.
Proof.
  revert t. induction groups as [|g rest IH]; intros t Hp; simpl in Hp.
  - injection Hp as <-. exists []. split; reflexivity.
  - simpl. destruct (collate g) as [e|b]; simpl in *; [discriminate|].
    destruct (eval_step m b) as [e|s]; simpl in *; [discriminate|].
    destruct (IH _ Hp) as (ss & Htr & ->).
    exists (s :: ss). rewrite Htr. split; reflexivity.
Qed.

End PassTraces.

Lemma epoch_metrics_sums (ss : list BatchStat) (l a : Q) :
  epoch_metrics (foldl accumulate zero_totals ss) = inr (l, a) ->
  sum_labels ss <> 0 /\
  (l == sum_loss ss / Qnat (sum_labels ss))%Q /\
  (a == 100 * Qnat (sum_correct ss) / Qnat (sum_labels ss))%Q.
Proof.
  unfold epoch_metrics.
  destruct (accumulate_all ss zero_totals) as (Hl & Hc & Ht).
  simpl in Hl, Hc, Ht.
  destruct (Nat.eqb_spec (t_total (foldl accumulate zero_totals ss)) 0) as [E|E];
    [discriminate|].
  intros [= <- <-]. rewrite Hc, Ht in *. split; [exact E|].
  split; [rewrite Hl, Qplus_0_l|]; reflexivity.
Qed.

Lemma sumQ_scaled (vs : list Q) (n : nat) :
  (sumQ (zip_with (fun v k => v * Qnat k) vs (replicate (length vs) n))
   == sumQ vs * Qnat n)%Q.
Proof.
  induction vs as [|v vs IH]; simpl.
  - ring.
  - rewrite IH. ring.
Qed.

Lemma sum_list_replicate_mul (k n : nat) : sum_list (replicate k n) = k * n.
Proof. induction k as [|k IH]; simpl; [reflexivity | rewrite IH; lia]. Qed.

Lemma equal_sizes_coincide (vs : list Q) (n : nat) :
  0 < n ->
  (weighted_mean vs (replicate (length vs) n) == simple_mean vs)%Q.
Proof.
  intros Hn. unfold weighted_mean, simple_mean.
  rewrite sumQ_scaled, sum_list_replicate_mul, Qnat_mult.
  destruct vs as [|v vs]; [reflexivity|].
  field. split; apply Qnat_nonzero; simpl; lia.
Qed.

Lemma sumQ_indicator (ns : list nat) (i a : nat) :
  ns !! i = Some a ->
  (sumQ (indicator i (length ns)) == 1)%Q /\
  (sumQ (zip_with (fun v k => v * Qnat k) (indicator i (length ns)) ns) == Qnat a)%Q.
Proof.
  unfold indicator. revert i. induction ns as [|n ns IH]; intros i Hi.
  - discriminate.
  - destruct i as [|i]; simpl in *.
    + injection Hi as ->. clear IH.
      assert (Hz : (sumQ (replicate (length ns) 0) == 0)%Q
                   /\ (sumQ (zip_with (fun v k => v * Qnat k)
                                (replicate (length ns) 0) ns) == 0)%Q).
      { induction ns as [|n ns IH]; simpl; [split; reflexivity|].
        destruct IH as [IH1 IH2]. rewrite IH1, IH2. split; ring. }
      destruct Hz as [-> ->]. split; ring.
    + destruct (IH i Hi) as [-> ->]. split; ring.
Qed.

Lemma coincide_only_equal_sizes (ns : list nat) :
  Forall (fun n => 0 < n) ns ->
  (forall vs, length vs = length ns ->
              (weighted_mean vs ns == simple_mean vs)%Q) ->
  forall i j a b, ns !! i = Some a -> ns !! j = Some b -> a = b.
Proof.
  intros Hpos Hall.
  assert (Hkey : forall i a, ns !! i = Some a -> a * length ns = sum_list ns).
  { intros i a Hi.
    assert (Hlen : length (indicator i (length ns)) = length ns).
    { unfold indicator. rewrite length_insert, length_replicate. reflexivity. }
    specialize (Hall _ Hlen).
    unfold weighted_mean, simple_mean in Hall.
    destruct (sumQ_indicator ns i a Hi) as [H1 H2].
    rewrite H1, H2, Hlen in Hall.
    assert (Hk : length ns <> 0).
    { apply lookup_lt_Some in Hi. lia. }
    assert (HN : sum_list ns <> 0).
    { destruct ns as [|n ns]; [contradiction|].
      apply Forall_cons in Hpos as [Hn _]. simpl. lia. }
    apply Qnat_inj. rewrite Qnat_mult.
    apply Qnat_nonzero in Hk, HN.
    transitivity (Qnat a / Qnat (sum_list ns) * (Qnat (sum_list ns) * Qnat (length ns)))%Q.
    - field. exact HN.
    - rewrite Hall. field. exact Hk. }
  intros i j a b Hi Hj.
  assert (Hk : 0 < length ns) by (apply lookup_lt_Some in Hi; lia).
  pose proof (Hkey i a Hi). pose proof (Hkey j b Hj). nia.
Qed.

Lemma regular_weighted (ss : list BatchStat) :
  Forall regular ss ->
  (sum_loss ss / Qnat (sum_labels ss)
   == weighted_mean (List.map bs_loss ss) (List.map bs_labels ss))%Q /\
  (100 * Qnat (sum_correct ss) / Qnat (sum_labels ss)
   == weighted_mean (List.map batch_acc ss) (List.map bs_labels ss))%Q.
Proof.
  intros Hreg. unfold weighted_mean, sum_labels.
  assert (Hnum :
    (sum_loss ss == sumQ (zip_with (fun v k => v * Qnat k)
                            (List.map bs_loss ss) (List.map bs_labels ss)))%Q /\
    (100 * Qnat (sum_correct ss)
     == sumQ (zip_with (fun v k => v * Qnat k)
                (List.map batch_acc ss) (List.map bs_labels ss)))%Q).
  { unfold sum_loss, sum_correct.
    induction Hreg as [|s ss [Hsz Hp] _ [IH1 IH2]]; simpl.
    - split; reflexivity.
    - rewrite <- IH1, <- IH2, Hsz. split; [reflexivity|].
      rewrite Qnat_plus. unfold batch_acc. field.
      apply Qnat_nonzero. lia. }
  destruct Hnum as [-> ->]. split; reflexivity.
Qed.

Lemma sumQ_replicate (k : nat) (v : Q) : (sumQ (replicate k v) == Qnat k * v)%Q.
Proof.
  induction k as [|k IH]; simpl.
  - reflexivity.
  - rewrite IH. change (Qnat (S k)) with (inject_Z (Z.of_nat (S k))).
    rewrite Nat2Z.inj_succ. unfold Z.succ. rewrite inject_Z_plus.
    unfold Qnat. ring.
Qed.

Lemma sumQ_constant (ns : list nat) (v : Q) :
  (sumQ (zip_with (fun v n => v * Qnat n) (replicate (length ns) v) ns)
   == v * Qnat (sum_list ns))%Q.
Proof.
  induction ns as [|n ns IH]; simpl.
  - change (Qnat 0) with 0%Q. ring.
  - rewrite IH, Qnat_plus. ring.
Qed.

Lemma equal_values_coincide (ns : list nat) (v : Q) :
  sum_list ns <> 0 ->
  (weighted_mean (replicate (length ns) v) ns
   == simple_mean (replicate (length ns) v))%Q.
Proof.
  intros Hsum. unfold weighted_mean, simple_mean.
  rewrite sumQ_constant, sumQ_replicate, length_replicate.
  assert (Hlen : length ns <> 0) by (destruct ns; [contradiction | discriminate]).
  apply Qnat_nonzero in Hsum, Hlen. field. split; assumption.
Qed.

(** C9 (amended).  The loss and accuracy of an epoch are the size-weighted
    aggregates over its batches: the sum of each batch's loss times its
    batch size, divided by the number of samples, and 100 times the number
    of correct predictions divided by the number of samples, for the
    training pass and for the validation pass.  On batches whose tensors
    agree in size this is the mean of the per-batch losses (accuracies)
    weighted by the batch sizes, not their plain mean: [1, 0] on batches of
    sizes 3 and 1 separates the two.  The two means are the same when all
    batches have the same size; they are also the same, whatever the sizes,
    when all batches have the same value; and equal sizes are what it takes
    for them to be the same for all per-batch values. *)
Theorem epoch_metrics_size_weighted :
  (forall `(N : Net) (m m1 : Model) (tm vm : Q * Q),
      run_epoch m = inr (m1, tm, vm) ->
      exists ts vs : list BatchStat,
        train_trace m (train_loader m) = inr ts /\
        val_trace m1 val_loader = inr vs /\
        (fst tm == sum_loss ts / Qnat (sum_labels ts))%Q /\
        (snd tm == 100 * Qnat (sum_correct ts) / Qnat (sum_labels ts))%Q /\
        (fst vm == sum_loss vs / Qnat (sum_labels vs))%Q /\
        (snd vm == 100 * Qnat (sum_correct vs) / Qnat (sum_labels vs))%Q /\
        (Forall regular ts ->
         (fst tm == weighted_mean (List.map bs_loss ts) (List.map bs_labels ts))%Q /\
         (snd tm == weighted_mean (List.map batch_acc ts) (List.map bs_labels ts))%Q) /\
        (Forall regular vs ->
         (fst vm == weighted_mean (List.map bs_loss vs) (List.map bs_labels vs))%Q /\
         (snd vm == weighted_mean (List.map batch_acc vs) (List.map bs_labels vs))%Q)) /\
  (forall (values : list Q) (n : nat),
      0 < n ->
      (weighted_mean values (replicate (length values) n) == simple_mean values)%Q) /\
  (forall (sizes : list nat) (v : Q),
      sum_list sizes <> 0 ->
      (weighted_mean (replicate (length sizes) v) sizes
       == simple_mean (replicate (length sizes) v))%Q) /\
  (forall sizes : list nat,
      Forall (fun n => 0 < n) sizes ->
      (forall values, length values = length sizes ->
                      (weighted_mean values sizes == simple_mean values)%Q) ->
      forall i j a b, sizes !! i = Some a -> sizes !! j = Some b -> a = b) /\
  ~ (weighted_mean [1; 0] [3; 1]%nat == simple_mean [1; 0])%Q.
Proof.
  split; [|split; [|split; [|split]]].
  - intros P N m m1 tm vm Hrun. unfold run_epoch in Hrun.
    destruct (train_pass m zero_totals (train_loader m)) as [e|[m' t]] eqn:Ht;
      simpl in Hrun; [discriminate|].
    destruct (epoch_metrics t) as [e|[tl ta]] eqn:Htm; simpl in Hrun; [discriminate|].
    destruct (val_pass m' zero_totals val_loader) as [e|v] eqn:Hv;
      simpl in Hrun; [discriminate|].
    destruct (epoch_metrics v) as [e|[vl va]] eqn:Hvm; simpl in Hrun; [discriminate|].
    injection Hrun as <- <- <-.
    apply train_pass_trace in Ht as (ts & Hts & ->).
    apply val_pass_trace in Hv as (vs & Hvs & ->).
    apply epoch_metrics_sums in Htm as (_ & Htl & Hta).
    apply epoch_metrics_sums in Hvm as (_ & Hvl & Hva).
    exists ts, vs. simpl.
    repeat (split; [assumption|]).
    split; intros Hreg; apply regular_weighted in Hreg as [R1 R2].
    + rewrite Htl, Hta. split; assumption.
    + rewrite Hvl, Hva. split; assumption.
  - exact equal_sizes_coincide.
  - exact equal_values_coincide.
  - exact coincide_only_equal_sizes.
  - intros E. vm_compute in E. discriminate.
Qed.

(** An epoch of the sequence classifier that always answers class 0: its
    validation pass has a batch of two samples (one of them right) and a
    batch of one (wrong).  The reported accuracy is the aggregate, 100/3,
    where the plain mean of the batch accuracies 50 and 0 is 25. *)
Lemma epoch_metrics_size_weighted_witness :
  exists (m1 : nat * nat) (tm vm : Q * Q) (vs : list BatchStat),
    run_epoch (N := kind_net) (0, 0) = inr (m1, tm, vm) /\
    val_trace (N := kind_net) m1 (@val_loader _ kind_net) = inr vs /\
    List.map bs_labels vs = [2; 1] /\
    List.map batch_acc vs = [100 * Qnat 1 / Qnat 2; 100 * Qnat 0 / Qnat 1]%Q /\
    (snd vm == 100 * Qnat (sum_correct vs) / Qnat (sum_labels vs))%Q /\
    (snd vm == 100 # 3)%Q /\
    (simple_mean (List.map batch_acc vs) == 25)%Q.
Proof.
  eexists _, _, _.
  match goal with
  | |- exists vs, ?run = ?r /\ _ =>
      assert (Hrun : run = r) by (vm_compute; reflexivity)
  end.
  destruct (proj1 epoch_metrics_size_weighted _ kind_net _ _ _ _ Hrun)
    as (ts & vs & _ & Hvs & _ & _ & _ & Hacc & _).
  exists vs. split; [exact Hrun|]. split; [exact Hvs|].
  vm_compute in Hvs. injection Hvs as <-.
  split; [reflexivity|]. split; [reflexivity|]. split; [exact Hacc|].
  split; reflexivity.
Defined.

(** C9, as stated, fails: the two means can be the same when the batches
    differ in size.  In an epoch of the sequence classifier that reads the
    last timestep, the validation batches have 2 and 1 samples, all of them
    classified right and both with loss 1/2: the reported loss and accuracy
    are also the plain means of the per-batch losses and accuracies. *)
Lemma unequal_batches_same_means :
  exists (m1 : nat * nat) (tm vm : Q * Q) (vs : list BatchStat),
    run_epoch (N := kind_net) (1, 0) = inr (m1, tm, vm) /\
    val_trace (N := kind_net) m1 (@val_loader _ kind_net) = inr vs /\
    List.map bs_labels vs = [2; 1] /\
    Forall regular vs /\
    (fst vm == weighted_mean (List.map bs_loss vs) (List.map bs_labels vs))%Q /\
    (snd vm == weighted_mean (List.map batch_acc vs) (List.map bs_labels vs))%Q /\
    (fst vm == simple_mean (List.map bs_loss vs))%Q /\
    (snd vm == simple_mean (List.map batch_acc vs))%Q.
Proof.
  eexists _, _, _, _. split; [vm_compute; reflexivity|].
  split; [vm_compute; reflexivity|].
  split; [reflexivity|].
  split; [repeat constructor|].
  repeat split; reflexivity.
Qed.

(** ** The epoch loop: best checkpoint and early stopping *)

Section LoopFacts.
Context `{N : Net}.
Implicit Types (st : LoopState) (v u : Q).

(** One turn of the loop, seen from the validation accuracy it measured. *)
Lemma epochs_loop_step ckpt_path extra patience n epoch st st' :
  epochs_loop ckpt_path extra patience (S n) epoch st = inr st' ->
  exists st1 v,
    val_acc (ls_history st1) = val_acc (ls_history st) ++ [v] /\
    ls_best_val_acc st1 = ls_best_val_acc st /\
    ls_epochs_without_improvement st1 = ls_epochs_without_improvement st /\
    ls_files st1 = ls_files st /\
    ((snd (early_stopping ckpt_path extra patience epoch st1 v) = true /\
      st' = fst (early_stopping ckpt_path extra patience epoch st1 v)) \/
     (snd (early_stopping ckpt_path extra patience epoch st1 v) = false /\
      epochs_loop ckpt_path extra patience n (S epoch)
        (fst (early_stopping ckpt_path extra patience epoch st1 v)) = inr st')).
Proof.
  simpl. unfold epoch_body.
  destruct (run_epoch (ls_model st)) as [e|[[m1 tm] vm]]; simpl; [discriminate|].
  set (st1 := {| ls_model := scheduler_step m1 (snd vm);
                 ls_history := append_history (ls_history st) tm vm;
                 ls_best_val_acc := ls_best_val_acc st;
                 ls_epochs_without_improvement := ls_epochs_without_improvement st;
                 ls_files := ls_files st |}).
  destruct (early_stopping ckpt_path extra patience epoch st1 (snd vm))
    as [st2 brk] eqn:Hes.
  intros Hloop. exists st1, (snd vm). rewrite Hes. simpl.
  repeat (split; [reflexivity|]).
  destruct brk.
  - left. split; [reflexivity | congruence].
  - right. split; [reflexivity | exact Hloop].
Qed.

(** What the loop leaves behind, from a state with best value [b]: either
    no later value exceeded [b] and nothing was saved, or the checkpoint
    is the one of the first epoch that reached the largest value. *)
Lemma epochs_loop_best ckpt_path extra patience n : forall epoch st st',
  epochs_loop ckpt_path extra patience n epoch st = inr st' ->
  exists new,
    val_acc (ls_history st') = val_acc (ls_history st) ++ new /\
    (((forall u, u ∈ new -> (u <= ls_best_val_acc st)%Q) /\
      ls_best_val_acc st' = ls_best_val_acc st /\
      ls_files st' = ls_files st) \/
     (exists E c,
        new !! E = Some (ck_val_acc c) /\
        (ls_best_val_acc st < ck_val_acc c)%Q /\
        (forall i u, i < E -> new !! i = Some u -> (u < ck_val_acc c)%Q) /\
        (forall u, u ∈ new -> (u <= ck_val_acc c)%Q) /\
        ls_best_val_acc st' = ck_val_acc c /\
        ls_files st' !! ckpt_path = Some (CkptFile c) /\
        ck_epoch c = epoch + E /\
        ck_extra c = extra)).
Proof.
  induction n as [|n IH]; intros epoch st st' Hloop.
  - injection Hloop as <-. exists []. split; [by rewrite app_nil_r|].
    left. split; [|done]. intros u Hu. by apply elem_of_nil in Hu.
  - apply epochs_loop_step in Hloop
      as (st1 & v & Hvals & Hbest & Hcnt & Hfiles & Hcases).
    unfold early_stopping in Hcases. rewrite Hbest in Hcases.
    destruct (Qlt_le_dec (ls_best_val_acc st) v) as [Hlt|Hle]; simpl in Hcases.
    + destruct Hcases as [[? _]|[_ Hrest]]; [discriminate|].
      apply IH in Hrest as (new & Hnew & Hres). simpl in Hnew, Hres.
      exists (v :: new). split.
      { rewrite Hnew, Hvals, <- app_assoc. reflexivity. }
      right. destruct Hres as [(Hall & Hb & Hf)|(E & c & HE & Hbc & Hbefore & Hmax & Hb & Hf & Hep & Hex)].
      * eexists 0, {| ck_epoch := epoch; ck_val_acc := v |}. simpl.
        split; [reflexivity|]. split; [exact Hlt|].
        split; [intros; lia|].
        split.
        { intros u [->|Hu]%elem_of_cons; [apply Qle_refl | by apply Hall]. }
        split; [exact Hb|]. split; [|split; [lia | reflexivity]].
        rewrite Hf. apply lookup_insert_eq.
      * exists (S E), c. simpl.
        split; [exact HE|]. split; [by eapply Qlt_trans|].
        split.
        { intros [|i] u Hi Hu; simpl in Hu.
          - injection Hu as <-. exact Hbc.
          - eapply Hbefore; [|exact Hu]. lia. }
        split.
        { intros u [->|Hu]%elem_of_cons; [by apply Qlt_le_weak | by apply Hmax]. }
        split; [exact Hb|]. split; [exact Hf|]. split; [lia | exact Hex].
    + destruct Hcases as [[_ ->]|[_ Hrest]].
      * exists [v]. split; [exact Hvals|]. left. simpl.
        split; [|split; congruence].
        intros u [->|Hu]%elem_of_cons; [exact Hle | by apply elem_of_nil in Hu].
      * apply IH in Hrest as (new & Hnew & Hres). simpl in Hnew, Hres.
        exists (v :: new). split.
        { rewrite Hnew, Hvals, <- app_assoc. reflexivity. }
        destruct Hres as [(Hall & Hb & Hf)|(E & c & HE & Hbc & Hbefore & Hmax & Hb & Hf & Hep & Hex)].
        -- left. split; [|split; congruence].
           intros u [->|Hu]%elem_of_cons; [exact Hle | by apply Hall].
        -- right. exists (S E), c. simpl.
           split; [exact HE|]. split; [exact Hbc|].
           split.
           { intros [|i] u Hi Hu; simpl in Hu.
             - injection Hu as <-. by eapply Qle_lt_trans.
             - eapply Hbefore; [|exact Hu]. lia. }
           split.
           { intros u [->|Hu]%elem_of_cons; [|by apply Hmax].
             apply Qlt_le_weak. by eapply Qle_lt_trans. }
           split; [exact Hb|]. split; [exact Hf|]. split; [lia | exact Hex].
Qed.

(** Whose weights the checkpoint file holds: when the loop raised the best
    value, those of the model at the end of the epoch that saved last, with
    the number of that epoch. *)
Lemma epochs_loop_weights ckpt_path extra patience n : forall epoch st st',
  epochs_loop ckpt_path extra patience n epoch st = inr st' ->
  (ls_best_val_acc st' = ls_best_val_acc st /\ ls_files st' = ls_files st) \/
  (exists E v m_E,
     (ls_best_val_acc st < ls_best_val_acc st')%Q /\
     model_at_epoch E (ls_model st) = inr m_E /\
     ls_files st' !! ckpt_path
     = Some (CkptFile {| ck_epoch := epoch + E;
                         ck_model_state_dict := state_dict m_E;
                         ck_val_acc := v;
                         ck_extra := extra |})).
Proof.
  induction n as [|n IH]; intros epoch st st' Hloop.
  - injection Hloop as <-. by left.
  - cbn [epochs_loop] in Hloop. unfold epoch_body in Hloop.
    destruct (run_epoch (ls_model st)) as [e|[[m1 tm] vm]] eqn:Hrun;
      simpl in Hloop; [discriminate|].
    assert (H0 : model_at_epoch 0 (ls_model st) = inr (scheduler_step m1 (snd vm))).
    { cbn [model_at_epoch]. by rewrite Hrun. }
    assert (HS : forall E, model_at_epoch (S E) (ls_model st)
                           = model_at_epoch E (scheduler_step m1 (snd vm))).
    { intros E. cbn [model_at_epoch]. by rewrite Hrun. }
    unfold early_stopping in Hloop. cbn [ls_best_val_acc] in Hloop.
    destruct (Qlt_le_dec (ls_best_val_acc st) (snd vm)) as [Hlt|Hle].
    + apply IH in Hloop as [[Hb Hf]|(E & v & m_E & Hb & Hm & Hf)];
        cbn [ls_best_val_acc ls_files ls_model] in *.
      * right. exists 0, (snd vm), (scheduler_step m1 (snd vm)).
        split; [by rewrite Hb|]. split; [exact H0|].
        rewrite Hf, Nat.add_0_r. apply lookup_insert_eq.
      * right. exists (S E), v, m_E.
        split; [by eapply Qlt_trans|]. split; [by rewrite HS|].
        rewrite Hf. do 3 f_equal. lia.
    + cbn [ls_epochs_without_improvement] in Hloop.
      destruct (patience <=? ls_epochs_without_improvement st + 1)%Z.
      * injection Hloop as <-. by left.
      * apply IH in Hloop as [[Hb Hf]|(E & v & m_E & Hb & Hm & Hf)];
          cbn [ls_best_val_acc ls_files ls_model] in *.
        -- by left.
        -- right. exists (S E), v, m_E.
           split; [exact Hb|]. split; [by rewrite HS|].
           rewrite Hf. do 3 f_equal. lia.
Qed.

(** How many epochs the loop adds, from a state whose counter [c] is below
    a patience of at least 1: [patience - c] if no value exceeds the best
    one, and [patience] after the last value that does, unless the [n]
    epochs of the range end first. *)
Lemma epochs_loop_length ckpt_path extra patience n : forall epoch st st',
  (1 <= patience)%Z ->
  (0 <= ls_epochs_without_improvement st < patience)%Z ->
  epochs_loop ckpt_path extra patience n epoch st = inr st' ->
  exists new,
    val_acc (ls_history st') = val_acc (ls_history st) ++ new /\
    ((forall u, u ∈ new -> (u <= ls_best_val_acc st)%Q) ->
     length new
     = Nat.min n (Z.to_nat (patience - ls_epochs_without_improvement st))) /\
    (forall E v,
        new !! E = Some v ->
        (ls_best_val_acc st < v)%Q ->
        (forall i u, i < E -> new !! i = Some u -> (u < v)%Q) ->
        (forall j u, E < j -> new !! j = Some u -> (u <= v)%Q) ->
        length new = Nat.min n (E + Z.to_nat patience + 1)).
Proof.
  induction n as [|n IH]; intros epoch st st' Hp Hc Hloop.
  - injection Hloop as <-. exists []. split; [by rewrite app_nil_r|].
    split; [reflexivity|]. intros E v HE. discriminate.
  - apply epochs_loop_step in Hloop
      as (st1 & v & Hvals & Hbest & Hcnt & Hfiles & Hcases).
    unfold early_stopping in Hcases. rewrite Hbest, Hcnt in Hcases.
    destruct (Qlt_le_dec (ls_best_val_acc st) v) as [Hlt|Hle]; simpl in Hcases.
    + destruct Hcases as [[? _]|[_ Hrest]]; [discriminate|].
      apply IH in Hrest as (new & Hnew & Hnone & Hlast); [|simpl; lia|simpl; lia].
      simpl in Hnew, Hnone, Hlast.
      exists (v :: new). split.
      { rewrite Hnew, Hvals, <- app_assoc. reflexivity. }
      split.
      { intros Hall. exfalso. apply (Qlt_irrefl v).
        eapply Qle_lt_trans; [|exact Hlt]. apply Hall. left. }
      intros [|E] w HE Hbw Hbefore Hafter; simpl in HE.
      * injection HE as ->. cbn [length]. rewrite Hnone.
        { rewrite Z.sub_0_r. lia. }
        intros u Hu. apply list_elem_of_lookup in Hu as [j Hj].
        apply (Hafter (S j)); [lia | exact Hj].
      * cbn [length]. rewrite (Hlast E w HE).
        { lia. }
        { apply (Hbefore 0); [lia | reflexivity]. }
        { intros i u Hi Hu. apply (Hbefore (S i)); [lia | exact Hu]. }
        { intros j u Hj Hu. apply (Hafter (S j)); [lia | exact Hu]. }
    + assert (Hfirst : forall E w (l : list Q),
                (v :: l) !! E = Some w -> (ls_best_val_acc st < w)%Q ->
                (forall i u, i < E -> (v :: l) !! i = Some u -> (u < w)%Q) ->
                exists E', E = S E' /\ l !! E' = Some w).
      { intros [|E] w l HE Hbw Hbefore; simpl in HE.
        - injection HE as ->. exfalso. apply (Qlt_irrefl w).
          eapply Qle_lt_trans; [exact Hle | exact Hbw].
        - eauto. }
      destruct Hcases as [[Hbrk ->]|[Hbrk Hrest]].
      * exists [v]. split; [exact Hvals|]. cbn [length].
        apply Z.leb_le in Hbrk.
        split; [intros _; lia|].
        intros E w HE Hbw Hbefore _.
        destruct (Hfirst E w [] HE Hbw Hbefore) as (E' & _ & ?). discriminate.
      * apply Z.leb_gt in Hbrk.
        apply IH in Hrest as (new & Hnew & Hnone & Hlast); [|simpl; lia|simpl; lia].
        simpl in Hnew, Hnone, Hlast.
        exists (v :: new). split.
        { rewrite Hnew, Hvals, <- app_assoc. reflexivity. }
        split.
        { intros Hall. cbn [length]. rewrite Hnone.
          - lia.
          - intros u Hu. apply Hall. by right. }
        intros E w HE Hbw Hbefore Hafter.
        destruct (Hfirst E w new HE Hbw Hbefore) as (E' & -> & HE').
        cbn [length]. rewrite (Hlast E' w HE' Hbw).
        { lia. }
        { intros i u Hi Hu. apply (Hbefore (S i)); [lia | exact Hu]. }
        { intros j u Hj Hu. apply (Hafter (S j)); [lia | exact Hu]. }
Qed.

End LoopFacts.

Section TrainingLoop.
Context `{N : Net}.

Lemma training_loop_best ckpt_path hist_path extra epochs patience model fs
    m' hist best fs' :
  ckpt_path <> hist_path ->
  training_loop ckpt_path hist_path extra epochs patience model fs
  = (inr (m', hist, best), fs') ->
  best_checkpoint_kept ckpt_path fs fs' hist best.
Proof.
  intros Hne. unfold training_loop.
  destruct (epochs_loop _ _ _ _ _ _) as [[e fs1]|st] eqn:Hloop; [discriminate|].
  intros [= <- <- <- <-].
  apply epochs_loop_best in Hloop as (new & Hnew & Hres).
  simpl in Hnew, Hres.
  unfold best_checkpoint_kept. rewrite Hnew, lookup_insert_ne by congruence.
  destruct Hres as [(Hall & Hb & Hf)|(E & c & HE & Hbc & Hbefore & Hmax & Hb & Hf & Hep & _)].
  - split.
    + intros (v & Hv & Hpos). exfalso. apply (Qlt_irrefl 0).
      eapply Qlt_le_trans; [exact Hpos | by apply Hall].
    + intros _. by rewrite Hf.
  - simpl in Hep. split.
    + intros _. exists c. rewrite Hep. done.
    + intros Hall. exfalso. apply (Qlt_irrefl 0).
      eapply Qlt_le_trans; [exact Hbc|]. apply Hall.
      apply list_elem_of_lookup. eauto.
Qed.

Lemma training_loop_checkpoint ckpt_path hist_path extra epochs patience model fs
    m' hist best fs' :
  ckpt_path <> hist_path ->
  training_loop ckpt_path hist_path extra epochs patience model fs
  = (inr (m', hist, best), fs') ->
  first_maximum_checkpoint ckpt_path extra model fs fs' hist best.
Proof.
  intros Hne Hrun.
  pose proof (training_loop_best _ _ _ _ _ _ _ _ _ _ _ Hne Hrun) as [Hsome Hnone].
  split; [|exact Hnone].
  intros Hex. destruct (Hsome Hex) as (c & Hfile & Hval & Hbest & Hmax & Hbefore).
  unfold training_loop in Hrun.
  destruct (epochs_loop _ _ _ _ _ _) as [[e fs1]|st] eqn:Hloop; [discriminate|].
  injection Hrun as <- <- <- <-.
  rewrite lookup_insert_ne in Hfile by congruence.
  apply epochs_loop_weights in Hloop as [[Hb _]|(E & v & m_E & _ & Hm & Hf)];
    cbn [ls_best_val_acc ls_model] in *.
  - exfalso. destruct Hex as (v & Hv & Hpos). apply (Qlt_irrefl 0).
    eapply Qlt_le_trans; [exact Hpos|]. rewrite <- Hb, Hbest. by apply Hmax.
  - rewrite Hf in Hfile. injection Hfile as <-.
    cbn [ck_epoch ck_val_acc Nat.add] in *.
    exists E, v, {| ck_epoch := E; ck_model_state_dict := state_dict m_E;
                    ck_val_acc := v; ck_extra := extra |}.
    split; [exact Hval|]. split; [exact Hmax|]. split; [exact Hbefore|].
    split; [by exists m_E|].
    split; [|exact Hbest]. rewrite lookup_insert_ne by congruence. exact Hf.
Qed.

Lemma training_loop_length ckpt_path hist_path extra epochs patience model fs
    m' hist best fs' E v :
  (1 <= patience)%Z ->
  training_loop ckpt_path hist_path extra epochs patience model fs
  = (inr (m', hist, best), fs') ->
  last_improvement hist E v ->
  length (val_acc hist) = Nat.min (Z.to_nat epochs) (E + Z.to_nat patience + 1).
Proof.
  intros Hp. unfold training_loop.
  destruct (epochs_loop _ _ _ _ _ _) as [[e fs1]|st] eqn:Hloop; [discriminate|].
  intros [= <- <- <- <-] (HE & Hpos & Hbefore & Hafter).
  apply epochs_loop_length in Hloop as (new & Hnew & _ & Hlast); simpl; [|lia|lia].
  simpl in Hnew, Hlast. rewrite Hnew in *. by eapply Hlast.
Qed.

End TrainingLoop.

(** C1 (amended).  For a run of either training loop that returns: if some
    epoch of the recorded history has a validation accuracy above 0, the
    checkpoint file holds the checkpoint of the first epoch [E] that reached
    the largest validation accuracy [v] of the history (no recorded value
    exceeds [v] and every earlier one is strictly smaller): its epoch
    number is [E], its weights are those of the model at the end of epoch
    [E], its accuracy is [v], which is also the returned best metric, and
    its last entry is the one of the script.  If no epoch has, the
    checkpoint file is left as it was and the returned best metric is 0. *)
Theorem best_checkpoint_is_first_maximum :
  forall `(N : Net),
    (forall model hidden_sizes epochs patience fs m' hist best fs',
        Trainer_train model hidden_sizes epochs patience fs
        = (inr (m', hist, best), fs') ->
        first_maximum_checkpoint "best_model.pth" (HiddenSizes hidden_sizes)
          model fs fs' hist best) /\
    (forall model model_name epochs patience fs m' hist best fs',
        train_model model model_name epochs patience fs
        = (inr (m', hist, best), fs') ->
        first_maximum_checkpoint (best_model_path model_name) (ModelName model_name)
          model fs fs' hist best).
Proof.
  intros P N. split.
  - intros * Hrun. eapply training_loop_checkpoint; [|exact Hrun]. discriminate.
  - intros * Hrun. eapply training_loop_checkpoint; [|exact Hrun].
    unfold best_model_path, history_path. simpl. discriminate.
Qed.

(** A run of ten epochs with patience 2 on the scripted classifier: the
    validation accuracies are 50, 100, 100, 0 (as fractions over 2); the checkpoint is the one
    of epoch 1, with the weights the model had after its second training
    pass, although epoch 2 reaches the same accuracy. *)
Lemma best_checkpoint_is_first_maximum_witness :
  exists m' hist best fs',
    Trainer_train (N := scripted_ab) 0 [256; 128; 64] 10 2 ∅
    = (inr (m', hist, best), fs') /\
    val_acc hist = [100 # 2; 200 # 2; 200 # 2; 0 # 2]%Q /\
    first_maximum_checkpoint (N := scripted_ab) "best_model.pth"
      (HiddenSizes [256; 128; 64]) 0 ∅ fs' hist best /\
    fs' !! "best_model.pth"
    = Some (CkptFile {| ck_epoch := 1; ck_model_state_dict := 2;
                        ck_val_acc := 200 # 2; ck_extra := HiddenSizes [256; 128; 64] |}).
Proof.
  eexists _, _, _, _. split; [vm_compute; reflexivity|].
  split; [vm_compute; reflexivity|].
  split; [|vm_compute; reflexivity].
  apply (proj1 (@best_checkpoint_is_first_maximum mlp_pipeline scripted_ab)
           0 [256; 128; 64] 10%Z 2%Z ∅ 4).
  vm_compute. reflexivity.
Defined.

(** C1, as stated, fails: two epochs whose validation accuracy is 0 leave
    no checkpoint in an empty directory, although epoch 0 holds the highest
    validation accuracy of the recorded history. *)
Lemma no_checkpoint_for_zero_accuracy :
  exists m' hist best fs',
    Trainer_train (N := scripted_never) 0 [256; 128; 64] 2 15 ∅
    = (inr (m', hist, best), fs') /\
    val_acc hist = [0 # 1; 0 # 1]%Q /\
    best = 0%Q /\
    fs' !! "best_model.pth" = None.
Proof.
  eexists _, _, _, _. split; [vm_compute; reflexivity|].
  split; [reflexivity|]. split; reflexivity.
Qed.

(** C2 (amended).  For a run of either training loop that returns, with a
    patience of at least 1: if epoch [E] is the last epoch of the recorded
    history whose validation accuracy set a new best value, the loop ran
    [E + patience + 1] epochs (it stopped right after epoch [E + patience])
    unless [range(epochs)] ended before. *)
Theorem early_stopping_after_patience :
  forall `(N : Net),
    (forall model hidden_sizes epochs patience fs m' hist best fs' E v,
        (1 <= patience)%Z ->
        Trainer_train model hidden_sizes epochs patience fs
        = (inr (m', hist, best), fs') ->
        last_improvement hist E v ->
        length (val_acc hist)
        = Nat.min (Z.to_nat epochs) (E + Z.to_nat patience + 1)) /\
    (forall model model_name epochs patience fs m' hist best fs' E v,
        (1 <= patience)%Z ->
        train_model model model_name epochs patience fs
        = (inr (m', hist, best), fs') ->
        last_improvement hist E v ->
        length (val_acc hist)
        = Nat.min (Z.to_nat epochs) (E + Z.to_nat patience + 1)).
Proof.
  intros P N. split; intros * Hp Hrun Hlast;
    eapply training_loop_length; eassumption.
Qed.

Lemma early_stopping_after_patience_witness :
  exists m' hist best fs',
    Trainer_train (N := scripted_ab) 0 [256; 128; 64] 10 2 ∅
    = (inr (m', hist, best), fs') /\
    last_improvement hist 1 (200 # 2) /\
    length (val_acc hist) = Nat.min (Z.to_nat 10) (1 + Z.to_nat 2 + 1).
Proof.
  eexists 4, (mkHistory _ _ _ [100 # 2; 200 # 2; 200 # 2; 0 # 2]%Q), _, _.
  assert (Hlast : last_improvement
                    (mkHistory [] [] [] [100 # 2; 200 # 2; 200 # 2; 0 # 2]%Q)
                    1 (200 # 2)).
  { split; [reflexivity|]. split; [reflexivity|]. split.
    - intros [|i] u Hi Hu; [|lia]. injection Hu as <-. reflexivity.
    - intros [|[|[|[|j]]]] u Hj Hu; try lia; try discriminate;
        injection Hu as <-; discriminate. }
  split; [vm_compute; reflexivity|].
  split.
  - destruct Hlast as (H1 & H2 & H3 & H4). repeat split; assumption.
  - eapply (proj1 (@early_stopping_after_patience mlp_pipeline scripted_ab)
              0 [256; 128; 64] 10%Z 2%Z ∅ 4 _ _ _ 1 (200 # 2)%Q).
    + lia.
    + vm_compute. reflexivity.
    + destruct Hlast as (H1 & H2 & H3 & H4). repeat split; assumption.
Defined.

(** C2, as stated, fails for a patience of 0: the accuracy last improves
    at epoch 1, and the loop still runs epoch 2 before it stops. *)
Lemma patience_zero_runs_one_more_epoch :
  exists m' hist best fs',
    Trainer_train (N := scripted_ab) 0 [256; 128; 64] 10 0 ∅
    = (inr (m', hist, best), fs') /\
    val_acc hist = [100 # 2; 200 # 2; 200 # 2]%Q /\
    length (val_acc hist) <> 1 + 0 + 1.
Proof.
  eexists _, _, _, _. split; [vm_compute; reflexivity|].
  split; [reflexivity|]. simpl. lia.
Qed.

(** ** Padded batches *)

Lemma lookup_map {A B : Type} (f : A -> B) (l : list A) (i : nat) :
  List.map f l !! i = f <$> (l !! i).
Proof.
  revert i. induction l as [|x l IH]; intros [|i]; simpl; try reflexivity.
  apply IH.
Qed.

Section Padding.
Variable D : nat.

Lemma zero_row_entries (j : fin D) : zero_row D !!! j = 0%Q.
Proof. unfold zero_row. apply vlookup_replicate. Qed.

Lemma getitem_length (samples : list (SeqSample D)) (idx : nat)
    (sequence : list (Row D)) (label_ seq_length : nat) :
  getitem D samples idx = inr (sequence, label_, seq_length) ->
  seq_length = length sequence.
Proof.
  unfold getitem. destruct (samples !! idx) as [sample|]; [|discriminate].
  destruct (Nat.eqb (length (s_landmarks D sample)) 0); [discriminate|].
  intros [= <- _ <-]. reflexivity.
Qed.

Lemma length_le_max (sequences : list (list (Row D))) (s : list (Row D)) :
  s ∈ sequences ->
  length s <= foldr Nat.max 0 (List.map (@length (Row D)) sequences).
Proof.
  induction sequences as [|s' rest IH]; intros Hin.
  - by apply elem_of_nil in Hin.
  - apply elem_of_cons in Hin as [->|Hin]; simpl; [lia|].
    specialize (IH Hin). lia.
Qed.

Lemma write_prefix_spec (tensor : list (Row D)) (max_len : nat) :
  length tensor <= max_len ->
  let slot := write_prefix D tensor (replicate max_len (zero_row D)) in
  length slot = max_len /\
  take (length tensor) slot = tensor /\
  (forall t, length tensor <= t < max_len -> slot !! t = Some (zero_row D)).
Proof.
  intros Hle. unfold write_prefix. simpl. split; [|split].
  - rewrite length_app, length_drop, length_replicate. lia.
  - by rewrite take_app_length.
  - intros t Ht. rewrite lookup_app_r by lia.
    rewrite lookup_drop. apply lookup_replicate_2. lia.
Qed.

End Padding.

(** C3.  [collate_sequences] returns a batch for every non-empty list of
    items, with one padded slot per item, the items' labels and the items'
    lengths.  Every slot has the length of the longest sequence of the
    batch; its first [L] rows, [L] the length of the item's sequence, are
    that sequence, and every row from position [L] on is the row of zeros. *)
Theorem collate_sequences_pads_with_zeros (D : nat) (batch : list (SeqItem D)) :
  batch <> [] ->
  exists b : SeqBatch D,
    collate_sequences D batch = inr b /\
    length (sb_sequences D b) = length batch /\
    sb_labels D b = List.map (fun it => snd (fst it)) batch /\
    sb_lengths D b = List.map snd batch /\
    (forall j : fin D, zero_row D !!! j = 0%Q) /\
    forall i sequence label_ seq_length,
      batch !! i = Some (sequence, label_, seq_length) ->
      exists slot,
        sb_sequences D b !! i = Some slot /\
        length slot
        = foldr Nat.max 0 (List.map (fun it => length (fst (fst it))) batch) /\
        take (length sequence) slot = sequence /\
        (forall t, length sequence <= t < length slot ->
                   slot !! t = Some (zero_row D)).
Proof.
  intros Hne. unfold collate_sequences, pad_sequence.
  destruct batch as [|it0 rest] eqn:Hb; [contradiction|]. rewrite <- Hb. clear Hne.
  destruct (List.map (fun it => fst (fst it)) batch) as [|s0 srest] eqn:Hs.
  { rewrite Hb in Hs. discriminate. }
  rewrite <- Hs. simpl. eexists. split; [reflexivity|]. simpl.
  split; [by rewrite !length_map|].
  split; [reflexivity|]. split; [reflexivity|].
  split; [apply zero_row_entries|].
  intros i sequence label_ seq_length Hi. unfold SeqItem in *.
  set (max_len := foldr Nat.max 0
                    (List.map (@length (Row D)) (List.map (fun it => fst (fst it)) batch))).
  assert (Hmax : foldr Nat.max 0 (List.map (fun it => length (fst (fst it))) batch)
                 = max_len).
  { unfold max_len. by rewrite List.map_map. }
  assert (Hle : length sequence <= max_len).
  { apply (length_le_max D (List.map (fun it => fst (fst it)) batch)).
    apply list_elem_of_lookup. exists i. by rewrite lookup_map, Hi. }
  destruct (write_prefix_spec D sequence max_len Hle) as (Hlen & Htake & Hzero).
  exists (write_prefix D sequence (replicate max_len (zero_row D))).
  split.
  { by rewrite !lookup_map, Hi. }
  rewrite Hmax, Hlen. split; [reflexivity|]. split; [exact Htake | exact Hzero].
Qed.

Lemma collate_sequences_pads_with_zeros_witness :
  exists b : SeqBatch 1,
    collate_sequences 1 [item_short_1; item_long_1] = inr b /\
    sb_sequences 1 b = [ [ [# 1%Q]; [# 0%Q] ]; [ [# (-1)%Q]; [# 1%Q] ] ] /\
    sb_lengths 1 b = [1; 2].
Proof.
  destruct (collate_sequences_pads_with_zeros 1 [item_short_1; item_long_1])
    as (b & Hb & _); [discriminate|].
  exists b. split; [exact Hb|].
  vm_compute in Hb. injection Hb as <-. split; reflexivity.
Defined.

(** C4 (amended).  A batch carries the true lengths of its sequences, but
    neither the training step nor the validation step reads them: the model
    is given the padded tensor only, and the loss and the number of correct
    predictions of a step are the same whatever lengths the batch carries.
    Padded timesteps are not masked by the loops. *)
Theorem steps_ignore_lengths (D : nat) (N : @Net (seq_pipeline D)) (m : Model)
    (padded_sequences : list (list (Row D))) (labels lengths lengths' : list nat) :
  @train_step (seq_pipeline D) N m (mkSeqBatch D padded_sequences labels lengths)
  = @train_step (seq_pipeline D) N m (mkSeqBatch D padded_sequences labels lengths') /\
  @eval_step (seq_pipeline D) N m (mkSeqBatch D padded_sequences labels lengths)
  = @eval_step (seq_pipeline D) N m (mkSeqBatch D padded_sequences labels lengths').
Proof. split; reflexivity. Qed.

(** C4, as stated, fails.  For the classifier that reads the last timestep
    it is given, the short sequence is counted correct when it is batched
    alone and wrong when it is batched with a longer one, where its last
    timestep is padding: the batch of both has 1 correct prediction, each
    alone has 1.  The result of the step also changes when only the rows
    beyond the lengths change. *)
Lemma padding_reaches_the_metrics :
  (exists b1 b2 b12 s1 s2 s12,
      collate_sequences 1 [item_short_1] = inr b1 /\
      collate_sequences 1 [item_long_1] = inr b2 /\
      collate_sequences 1 [item_short_1; item_long_1] = inr b12 /\
      @eval_step _ kind_net (1, 0) b1 = inr s1 /\ bs_correct s1 = 1 /\
      @eval_step _ kind_net (1, 0) b2 = inr s2 /\ bs_correct s2 = 1 /\
      @eval_step _ kind_net (1, 0) b12 = inr s12 /\ bs_correct s12 = 1) /\
  ~ @depends_only_on_unpadded 1 kind_net (1, 0).
Proof.
  split.
  - eexists _, _, _, _, _, _.
    repeat (split; [vm_compute; reflexivity|]). vm_compute. reflexivity.
  - intros Hdep.
    specialize (Hdep
      (mkSeqBatch 1 [ [ [# 1%Q]; [# 0%Q] ] ] [1] [1])
      (mkSeqBatch 1 [ [ [# 1%Q]; [# 1%Q] ] ] [1] [1])
      eq_refl eq_refl eq_refl).
    vm_compute in Hdep. discriminate.
Qed.

(** ** The three-model run *)

Section HarnessFacts.
Context `{N : Net}.

(** The loop writes to the checkpoint file only. *)
Lemma epochs_loop_other_files ckpt_path extra patience (p : string) n :
  p <> ckpt_path ->
  forall epoch st,
    match epochs_loop ckpt_path extra patience n epoch st with
    | inl (_, fs') => fs' !! p = ls_files st !! p
    | inr st' => ls_files st' !! p = ls_files st !! p
    end.
Proof.
  intros Hp. induction n as [|n IH]; intros epoch st; simpl; [reflexivity|].
  unfold epoch_body.
  destruct (run_epoch (ls_model st)) as [e|[[m1 tm] vm]]; simpl; [reflexivity|].
  unfold early_stopping. simpl.
  destruct (Qlt_le_dec (ls_best_val_acc st) (snd vm)) as [Hlt|Hle].
  - specialize (IH (S epoch)
      {| ls_model := scheduler_step m1 (snd vm);
         ls_history := append_history (ls_history st) tm vm;
         ls_best_val_acc := snd vm;
         ls_epochs_without_improvement := 0;
         ls_files :=
           <[ckpt_path := CkptFile {| ck_epoch := epoch;
                                      ck_model_state_dict :=
                                        state_dict (scheduler_step m1 (snd vm));
                                      ck_val_acc := snd vm;
                                      ck_extra := extra |}]> (ls_files st) |}).
    simpl in IH. rewrite lookup_insert_ne in IH by congruence.
    destruct (epochs_loop _ _ _ _ _ _) as [[e fs']|st']; exact IH.
  - destruct (patience <=? ls_epochs_without_improvement st + 1)%Z; [reflexivity|].
    match goal with
    | |- context [epochs_loop _ _ _ _ _ ?s] => specialize (IH (S epoch) s)
    end.
    simpl in IH. destruct (epochs_loop _ _ _ _ _ _) as [[e fs']|st']; exact IH.
Qed.

Lemma train_model_other_files model model_name epochs patience fs (p : string) :
  p <> best_model_path model_name ->
  p <> history_path model_name ->
  snd (train_model model model_name epochs patience fs) !! p = fs !! p.
Proof.
  intros Hb Hh. unfold train_model, training_loop.
  pose proof (epochs_loop_other_files (best_model_path model_name)
                (ModelName model_name) patience p (Z.to_nat epochs) Hb 0
                {| ls_model := model;
                   ls_history := empty_history;
                   ls_best_val_acc := 0;
                   ls_epochs_without_improvement := 0;
                   ls_files := fs |}) as Hloop.
  destruct (epochs_loop _ _ _ _ _ _) as [[e fs']|st']; simpl in *; [exact Hloop|].
  rewrite lookup_insert_ne by congruence. exact Hloop.
Qed.

Lemma evaluate_model_files model model_name fs :
  snd (evaluate_model model model_name fs) = fs.
Proof.
  unfold evaluate_model.
  destruct (fs !! best_model_path model_name) as [[c|h|r]|]; reflexivity.
Qed.

Lemma run_one_other_files model model_name results fs (p : string) :
  p <> best_model_path model_name ->
  p <> history_path model_name ->
  snd (run_one model model_name results fs) !! p = fs !! p.
Proof.
  intros Hb Hh. unfold run_one, fio_bind, fio_ret.
  pose proof (train_model_other_files model model_name 100 15 fs p Hb Hh) as Ht.
  destruct (train_model model model_name 100 15 fs) as [[e|[[m1 h] best]] fs1];
    simpl in *; [exact Ht|].
  pose proof (evaluate_model_files m1 model_name fs1) as He.
  destruct (evaluate_model m1 model_name fs1) as [[e|[acc m2]] fs2];
    simpl in *; subst fs2; exact Ht.
Qed.

End HarnessFacts.

(** C7 (amended).  [run_all] does not catch anything.  A block of
    [run_all] raises when the training or the evaluation of its model
    raises, and then [run_all] raises the same exception at once, with the
    output directory as the failing call left it: the blocks of the later
    models do not run (no checkpoint or history of theirs is written), no
    entry is recorded for the failed model and the results file is not
    written. *)
Theorem run_all_stops_at_first_error :
  forall `(N : Net) (transformer gru tcn : Model) (fs : FS Weights),
    (forall model model_name results fs0 e fs1,
        train_model model model_name 100 15 fs0 = (inl e, fs1) ->
        run_one model model_name results fs0 = (inl e, fs1)) /\
    (forall model model_name results fs0 m1 hist best fs1 e fs2,
        train_model model model_name 100 15 fs0 = (inr (m1, hist, best), fs1) ->
        evaluate_model m1 model_name fs1 = (inl e, fs2) ->
        run_one model model_name results fs0 = (inl e, fs2)) /\
    (forall e fs1,
        run_one transformer "transformer" [] fs = (inl e, fs1) ->
        run_all transformer gru tcn fs = (inl e, fs1) /\
        fs1 !! best_model_path "gru" = fs !! best_model_path "gru" /\
        fs1 !! best_model_path "tcn" = fs !! best_model_path "tcn") /\
    (forall r1 fs1 e fs2,
        run_one transformer "transformer" [] fs = (inr r1, fs1) ->
        run_one gru "gru" r1 fs1 = (inl e, fs2) ->
        run_all transformer gru tcn fs = (inl e, fs2) /\
        fs2 !! best_model_path "tcn" = fs !! best_model_path "tcn" /\
        fs2 !! history_path "tcn" = fs !! history_path "tcn") /\
    (forall r1 fs1 r2 fs2 e fs3,
        run_one transformer "transformer" [] fs = (inr r1, fs1) ->
        run_one gru "gru" r1 fs1 = (inr r2, fs2) ->
        run_one tcn "tcn" r2 fs2 = (inl e, fs3) ->
        run_all transformer gru tcn fs = (inl e, fs3)) /\
    (forall e fs',
        run_all transformer gru tcn fs = (inl e, fs') ->
        fs' !! "all_models_results.json" = fs !! "all_models_results.json").
Proof.
  intros P N transformer gru tcn fs.
  split; [|split; [|split; [|split; [|split]]]].
  - intros * Ht. unfold run_one, fio_bind. rewrite Ht. reflexivity.
  - intros * Ht He. unfold run_one, fio_bind. rewrite Ht. simpl. rewrite He. reflexivity.
  - intros e fs1 H1. unfold run_all, fio_bind. rewrite H1.
    split; [reflexivity|].
    pose proof (run_one_other_files transformer "transformer" [] fs) as Ho.
    rewrite H1 in Ho. simpl in Ho. split; apply Ho; discriminate.
  - intros r1 fs1 e fs2 H1 H2. unfold run_all, fio_bind. rewrite H1, H2.
    split; [reflexivity|].
    pose proof (run_one_other_files transformer "transformer" [] fs) as Ho1.
    pose proof (run_one_other_files gru "gru" r1 fs1) as Ho2.
    rewrite H1 in Ho1. rewrite H2 in Ho2. simpl in Ho1, Ho2.
    split; (rewrite Ho2 by discriminate); apply Ho1; discriminate.
  - intros r1 fs1 r2 fs2 e fs3 H1 H2 H3. unfold run_all, fio_bind.
    rewrite H1, H2, H3. reflexivity.
  - intros e fs'. unfold run_all, fio_bind, write_file, fio_ret.
    pose proof (run_one_other_files transformer "transformer" [] fs
                  "all_models_results.json") as Ho1.
    destruct (run_one transformer "transformer" [] fs) as [[e1|r1] fs1]; simpl in Ho1.
    { intros [= _ <-]. apply Ho1; discriminate. }
    pose proof (run_one_other_files gru "gru" r1 fs1
                  "all_models_results.json") as Ho2.
    destruct (run_one gru "gru" r1 fs1) as [[e2|r2] fs2]; simpl in Ho2.
    { intros [= _ <-]. rewrite Ho2 by discriminate. apply Ho1; discriminate. }
    pose proof (run_one_other_files tcn "tcn" r2 fs2
                  "all_models_results.json") as Ho3.
    destruct (run_one tcn "tcn" r2 fs2) as [[e3|r3] fs3]; simpl in Ho3.
    { intros [= _ <-]. rewrite Ho3, Ho2 by discriminate. apply Ho1; discriminate. }
    discriminate.
Qed.

(** [run_all] on the transformer of kind 0, a GRU whose forward pass
    raises and the TCN of kind 2, in an empty directory. *)
Lemma run_all_stops_at_first_error_witness :
  exists e fs',
    @run_all _ kind_net (0, 0) (3, 0) (2, 0) ∅ = (inl e, fs') /\
    fs' !! "all_models_results.json" = None.
Proof.
  eexists _, _. split; [vm_compute; reflexivity|].
  erewrite (proj2 (proj2 (proj2 (proj2 (proj2
              (@run_all_stops_at_first_error _ kind_net (0, 0) (3, 0) (2, 0) ∅)))))).
  - reflexivity.
  - vm_compute. reflexivity.
Defined.

(** C7, as stated, fails: when the forward pass of the second model
    raises, [run_all] raises; there is no table with a failed entry, and
    the third model is never trained. *)
Lemma failing_model_aborts_the_comparison :
  exists fs',
    @run_all _ kind_net (0, 0) (3, 0) (2, 0) ∅
    = (inl (RuntimeError "forward failed"), fs') /\
    is_Some (fs' !! best_model_path "transformer") /\
    fs' !! best_model_path "tcn" = None /\
    fs' !! history_path "tcn" = None /\
    fs' !! "all_models_results.json" = None.
Proof.
  eexists. split; [vm_compute; reflexivity|].
  split; [eexists; reflexivity|]. repeat split; reflexivity.
Qed.

(** C8 (amended).  The table that [run_all] returns, prints and writes to
    the results file lists the three models in the order in which they
    were trained (transformer, gru, tcn), whatever their test accuracies
    and parameter counts; it is not sorted. *)
Theorem results_in_training_order :
  forall `(N : Net) (transformer gru tcn : Model) (fs fs' : FS Weights)
         (results : list (string * ModelResult)),
    run_all transformer gru tcn fs = (inr results, fs') ->
    List.map fst results = ["transformer"; "gru"; "tcn"] /\
    List.map (fun row => fst (fst (fst row))) (summary_rows results)
    = ["transformer"; "gru"; "tcn"] /\
    fs' !! "all_models_results.json" = Some (ResultsFile results).
Proof.
  intros P N transformer gru tcn fs fs' results.
  unfold run_all, run_one, fio_bind, fio_ret, write_file.
  destruct (train_model transformer _ _ _ _) as [[e|[[m1 h1] b1]] fs1]; [discriminate|].
  destruct (evaluate_model m1 _ _) as [[e|[a1 m1']] fs1']; [discriminate|].
  destruct (train_model gru _ _ _ _) as [[e|[[m2 h2] b2]] fs2]; [discriminate|].
  destruct (evaluate_model m2 _ _) as [[e|[a2 m2']] fs2']; [discriminate|].
  destruct (train_model tcn _ _ _ _) as [[e|[[m3 h3] b3]] fs3]; [discriminate|].
  destruct (evaluate_model m3 _ _) as [[e|[a3 m3']] fs3']; [discriminate|].
  simpl. intros [= <- <-]. split; [reflexivity|]. split; [reflexivity|].
  apply lookup_insert_eq.
Qed.

Lemma results_in_training_order_witness :
  exists results fs',
    @run_all _ kind_net (0, 0) (1, 0) (2, 0) ∅ = (inr results, fs') /\
    List.map fst results = ["transformer"; "gru"; "tcn"].
Proof.
  eexists _, _. split; [vm_compute; reflexivity|].
  eapply (@results_in_training_order _ kind_net (0, 0) (1, 0) (2, 0) ∅).
  vm_compute. reflexivity.
Defined.

(** C8, as stated, fails: with test accuracies of 1/3, 1 and 2/3 (in
    percent) for the transformer, the GRU and the TCN, the table still
    starts with the transformer. *)
Lemma table_is_not_ranked :
  exists r1 r2 r3 fs',
    @run_all _ kind_net (0, 0) (1, 0) (2, 0) ∅
    = (inr [("transformer", r1); ("gru", r2); ("tcn", r3)], fs') /\
    test_acc r1 = Some (100 # 3)%Q /\
    test_acc r2 = Some (300 # 3)%Q /\
    test_acc r3 = Some (200 # 3)%Q /\
    ~ ranked [("transformer", r1); ("gru", r2); ("tcn", r3)].
Proof.
  eexists _, _, _, _. split; [vm_compute; reflexivity|].
  split; [reflexivity|]. split; [reflexivity|]. split; [reflexivity|].
  simpl. unfold ranks_before. simpl.
  intros [[Hlt|[Heq _]] _].
  - vm_compute in Hlt. discriminate.
  - vm_compute in Heq. discriminate.
Qed.

(** ** Loading the records *)

Lemma getitem0_frames (a : ndarray) (F : nat) :
  shape a = [F; 21; 3] ->
  well_formed a ->
  (0 < F ->
   exists a0, getitem0 a = inr a0 /\ shape a0 = [21; 3] /\
              data a0 = take 63 (data a) /\ length (data a0) = 63) /\
  (F = 0 -> exists e, getitem0 a = inl e).
Proof.
  intros Hs Hwf. unfold well_formed in Hwf. rewrite Hs in Hwf. simpl in Hwf.
  unfold getitem0. rewrite Hs. split.
  - intros HF. destruct (Nat.eqb_spec F 0) as [->|_]; [lia|].
    eexists. split; [reflexivity|]. simpl.
    split; [reflexivity|]. split; [reflexivity|].
    rewrite length_take. lia.
  - intros ->. simpl. eauto.
Qed.

(** C10.  A record whose landmark array has the shape (frames, 21, 3) is
    loaded exactly when it has at least one frame, and the sample stored
    for it keeps the first frame only: its features are the first 63
    entries of the array, there are exactly 63 of them, and its landmarks
    are the (21, 3) array of that frame, whatever the number of frames and
    whatever the later frames hold. *)
Theorem first_frame_features (gloss_ : string) (label_ : nat) (pkl_file : PklFile)
    (data_ : PickleData) (a : ndarray) (F : nat) :
  pf_content pkl_file = Some data_ ->
  p_landmarks data_ = Some a ->
  shape a = [F; 21; 3] ->
  well_formed a ->
  (0 < F ->
   exists sample,
     load_sample gloss_ label_ pkl_file = inr sample /\
     features sample = take 63 (data a) /\
     length (features sample) = 63 /\
     shape (landmarks sample) = [21; 3] /\
     load_files gloss_ label_ [pkl_file] [] = [sample]) /\
  (F = 0 ->
   (exists e, load_sample gloss_ label_ pkl_file = inl e) /\
   load_files gloss_ label_ [pkl_file] [] = []).
Proof.
  intros Hc Hl Hs Hwf.
  destruct (getitem0_frames a F Hs Hwf) as [Hpos Hzero].
  unfold load_files, load_sample. rewrite Hc, Hl, Hs. simpl. split.
  - intros HF. destruct (Hpos HF) as (a0 & -> & Hs0 & Hd0 & Hlen). simpl.
    eexists. split; [reflexivity|]. simpl. unfold flatten. auto.
  - intros HF. destruct (Hzero HF) as (e & ->). simpl. eauto.
Qed.

Lemma first_frame_features_witness :
  exists sample,
    load_sample "a" 0 (two_frame_record "kaggle_a_0000.pkl" 1 2) = inr sample /\
    features sample = replicate 63 1%Q /\
    length (features sample) = 63.
Proof.
  destruct (first_frame_features "a" 0 (two_frame_record "kaggle_a_0000.pkl" 1 2)
              _ _ 2 eq_refl eq_refl eq_refl eq_refl) as [Hpos _].
  destruct Hpos as (sample & Hload & Hfeat & Hlen & _); [lia|].
  exists sample. split; [exact Hload|]. split; [|exact Hlen].
  rewrite Hfeat. reflexivity.
Defined.

(** ** The split *)

Lemma select_length {A : Type} (xs : list A) (idx : list nat) (ys : list A) :
  select xs idx = inr ys -> length ys = length idx.
Proof.
  revert ys. induction idx as [|i idx IH]; intros ys; simpl.
  - intros [= <-]. reflexivity.
  - destruct (xs !! i); [|discriminate].
    destruct (select xs idx) as [e|zs]; simpl; [discriminate|].
    intros [= <-]. simpl. f_equal. by apply IH.
Qed.



Lemma count_labels_nonempty (labels : list nat) :
  labels <> [] -> count_labels labels <> ∅.
Proof.
  unfold count_labels.
  assert (Hgen : forall ls (counts : gmap nat nat),
             counts <> ∅ -> foldl (fun c l => <[l := default 0 (c !! l) + 1]> c) counts ls <> ∅).
  { induction ls as [|l ls IH]; intros counts Hc; simpl; [exact Hc|].
    apply IH. apply insert_non_empty. }
  destruct labels as [|l ls]; [done|]. intros _. simpl.
  apply Hgen. apply insert_non_empty.
Qed.



Section SplitFacts.
Context `{L : StrLower} `{SK : Sklearn}.





End SplitFacts.

(** C5 (amended).  [train_test_split] returns, when it returns, its input
    divided in two (the library's contract).  Then whenever [create_splits]
    returns, its three splits are the samples at three lists of indices that
    are pairwise disjoint, without repetition, and that together are exactly
    the indices of the loaded samples; the three sizes, which are the sizes
    recorded in the metadata, add up to the number of loaded samples. *)
Theorem splits_partition_the_samples (L : StrLower) (SK : Sklearn) :
  (forall arrays test_size stratify random_state a b,
      train_test_split arrays test_size stratify random_state = inr (a, b) ->
      a ++ b ≡ₚ arrays) ->
  forall dirs train_ratio val_ratio test_ratio random_state splits metadata,
    create_splits dirs train_ratio val_ratio test_ratio random_state
    = inr (splits, metadata) ->
    let all_samples := load_dirs dirs [] in
    exists train_idx val_idx test_idx,
      split_indices (List.map label all_samples)
        train_ratio val_ratio test_ratio random_state
      = inr (train_idx, val_idx, test_idx) /\
      select all_samples train_idx = inr (train splits) /\
      select all_samples val_idx = inr (val splits) /\
      select all_samples test_idx = inr (test splits) /\
      train_idx ++ val_idx ++ test_idx ≡ₚ seq 0 (length all_samples) /\
      NoDup (train_idx ++ val_idx ++ test_idx) /\
      (forall i, i ∈ train_idx -> (i ∉ val_idx) /\ (i ∉ test_idx)) /\
      (forall i, i ∈ val_idx -> i ∉ test_idx) /\
      (forall i, i < length all_samples <->
                 i ∈ train_idx \/ i ∈ val_idx \/ i ∈ test_idx) /\
      length (train splits) + length (val splits) + length (test splits)
      = length all_samples /\
      md_splits metadata
      = (length (train splits), length (val splits), length (test splits)).
Proof.
  intros Hpart dirs train_ratio val_ratio test_ratio random_state splits metadata.
  unfold create_splits.
  destruct (split_indices _ _ _ _ _) as [e0|[[train_idx val_idx] test_idx]] eqn:Hsp;
    simpl; [discriminate|].
  destruct (select _ train_idx) as [e1|train_] eqn:S1; simpl; [discriminate|].
  destruct (select _ val_idx) as [e2|val_] eqn:S2; simpl; [discriminate|].
  destruct (select _ test_idx) as [e3|test_] eqn:S3; simpl; [discriminate|].
  destruct (split_arrays train_) as [?|?]; simpl; [discriminate|].
  destruct (split_arrays val_) as [?|?]; simpl; [discriminate|].
  destruct (split_arrays test_) as [?|?]; simpl; [discriminate|].
  destruct (report_split train_) as [?|?]; simpl; [discriminate|].
  destruct (report_split val_) as [?|?]; simpl; [discriminate|].
  destruct (report_split test_) as [?|?]; simpl; [discriminate|].
  intros [= <- <-]. simpl.
  exists train_idx, val_idx, test_idx.
  assert (Hperm : train_idx ++ val_idx ++ test_idx
                  ≡ₚ seq 0 (length (load_dirs dirs []))).
  { unfold split_indices in Hsp.
    destruct (min_values _) as [?|?]; simpl in Hsp; [discriminate|].
    destruct (train_test_split _ _ _ _) as [?|[tv te]] eqn:H1; simpl in Hsp;
      [discriminate|].
    destruct (select _ tv) as [?|?]; simpl in Hsp; [discriminate|].
    destruct (Qeq_bool _ _); simpl in Hsp; [discriminate|].
    destruct (train_test_split tv _ _ _) as [?|[t v]] eqn:H2; simpl in Hsp;
      [discriminate|].
    injection Hsp as <- <- <-.
    apply Hpart in H1, H2. rewrite length_map in H1.
    rewrite app_assoc, H2. exact H1. }
  assert (Hnd : NoDup (train_idx ++ val_idx ++ test_idx)).
  { rewrite Hperm. apply NoDup_seq. }
  repeat (split; [done|]).
  apply NoDup_app in Hnd as (_ & Hdis1 & Hnd2).
  apply NoDup_app in Hnd2 as (_ & Hdis2 & _).
  split.
  { intros i Hi. specialize (Hdis1 i Hi). rewrite elem_of_app in Hdis1. tauto. }
  split; [exact Hdis2|].
  split.
  { intros i. rewrite <- !elem_of_app, Hperm, elem_of_seq. lia. }
  split; [|reflexivity].
  apply select_length in S1, S2, S3. rewrite S1, S2, S3.
  apply Permutation_length in Hperm.
  rewrite !length_app, length_seq in Hperm. lia.
Qed.

Lemma cut_partition arrays test_size stratify random_state a b :
  cut_train_test_split arrays test_size stratify random_state = inr (a, b) ->
  a ++ b ≡ₚ arrays.
Proof.
  unfold cut_train_test_split.
  destruct (min_values _) as [?|least]; [discriminate|].
  destruct (Nat.ltb least 2); [discriminate|].
  destruct (_ || _)%bool; [discriminate|].
  intros [= <- <-]. by rewrite take_drop.
Qed.

Lemma splits_partition_the_samples_witness :
  exists splits metadata,
    @create_splits ascii_names cut_sklearn two_classes (7 # 10) (15 # 100) (15 # 100) 42
    = inr (splits, metadata) /\
    md_splits metadata = (14, 3, 3) /\
    length (train splits) + length (val splits) + length (test splits) = 20.
Proof.
  destruct (@create_splits ascii_names cut_sklearn two_classes
              (7 # 10) (15 # 100) (15 # 100) 42)
    as [e|[splits metadata]] eqn:Hrun; [vm_compute in Hrun; discriminate|].
  exists splits, metadata. split; [reflexivity|].
  destruct (splits_partition_the_samples ascii_names cut_sklearn cut_partition
              _ _ _ _ _ _ _ Hrun)
    as (train_idx & val_idx & test_idx & _ & _ & _ & _ & _ & _ & _ & _ & _ & Hlen & Hmd).
  split; [|exact Hlen].
  vm_compute in Hrun. injection Hrun as <- <-. reflexivity.
Defined.

(** C5, as stated, fails: on a store without any loadable sample (here
    an empty directory) nothing is returned; [min] over the empty label
    counts raises before the library is called. *)
Lemma empty_store_is_not_split :
  @load_dirs ascii_names [] [] = [] /\
  @create_splits ascii_names cut_sklearn [] (7 # 10) (15 # 100) (15 # 100) 42
  = inl (ValueError "min() arg is an empty sequence").
Proof. split; reflexivity. Qed.




(** * Further properties *)

(** ** The class index and the loaded samples *)

Lemma index_of_lookup (key : string) (l : list string) (i : nat) :
  index_of key l = Some i -> l !! i = Some key.
Proof.
  revert i. induction l as [|x l IH]; intros i; simpl; [discriminate|].
  destruct (String.eqb_spec x key) as [->|Hne].
  - intros [= <-]. reflexivity.
  - destruct (index_of key l) as [j|]; simpl; [|discriminate].
    intros [= <-]. simpl. by apply IH.
Qed.

Lemma index_of_elem (key : string) (l : list string) :
  key ∈ l -> is_Some (index_of key l).
Proof.
  induction l as [|x l IH]; intros Hin; [by apply elem_of_nil in Hin|].
  simpl. destruct (String.eqb_spec x key) as [->|Hne]; [eauto|].
  apply elem_of_cons in Hin as [->|Hin]; [done|].
  destruct (IH Hin) as [j ->]. simpl. eauto.
Qed.

Lemma sorted_classes_NoDup : NoDup (merge_sort String.le TARGET_CLASSES).
Proof.
  rewrite merge_sort_Permutation.
  apply (bool_decide_unpack _). vm_compute. reflexivity.
Qed.

(** X1.  The class index of [create_splits] is a bijection between the 36
    target class names and the indices 0..35, in the order of the names:
    a name has an index exactly when it is a target class, the index is
    below 36, two names with the same index are the same name, every index
    below 36 is the index of a name, and a smaller index belongs to a
    smaller or equal name. *)
Theorem label_to_idx_bijection :
  (forall key, key ∈ TARGET_CLASSES <-> is_Some (label_to_idx key)) /\
  (forall key i, label_to_idx key = Some i -> i < 36) /\
  (forall key1 key2 i,
      label_to_idx key1 = Some i -> label_to_idx key2 = Some i -> key1 = key2) /\
  (forall i, i < 36 -> exists key, label_to_idx key = Some i) /\
  (forall key1 key2 i j,
      label_to_idx key1 = Some i -> label_to_idx key2 = Some j ->
      i <= j -> String.le key1 key2).
Proof.
  unfold label_to_idx.
  assert (Hlen : length (merge_sort String.le TARGET_CLASSES) = 36).
  { rewrite merge_sort_Permutation. reflexivity. }
  split; [|split; [|split; [|split]]].
  - intros key. split.
    + intros Hin. apply index_of_elem. by rewrite merge_sort_Permutation.
    + intros [i Hi]. apply index_of_lookup in Hi.
      rewrite <- (merge_sort_Permutation String.le).
      apply list_elem_of_lookup. eauto.
  - intros key i Hi. apply index_of_lookup, lookup_lt_Some in Hi. lia.
  - intros key1 key2 i H1 H2. apply index_of_lookup in H1, H2. congruence.
  - intros i Hi.
    destruct (lookup_lt_is_Some_2 (merge_sort String.le TARGET_CLASSES) i)
      as [key Hkey]; [lia|].
    exists key.
    destruct (index_of_elem key (merge_sort String.le TARGET_CLASSES)) as [j Hj].
    { apply list_elem_of_lookup. eauto. }
    rewrite Hj. f_equal.
    apply index_of_lookup in Hj.
    eapply NoDup_lookup; [apply sorted_classes_NoDup | exact Hj | exact Hkey].
  - intros key1 key2 i j H1 H2 Hij. apply index_of_lookup in H1, H2.
    destruct (decide (i = j)) as [->|Hne].
    { assert (key1 = key2) as -> by congruence. reflexivity. }
    pose proof (StronglySorted_merge_sort String.le TARGET_CLASSES) as Hs.
    revert Hs H1 H2. generalize (merge_sort String.le TARGET_CLASSES).
    intros l Hs. revert i j Hij Hne.
    induction Hs as [|x l Hs IH Hall]; intros i j Hij Hne H1 H2; [discriminate|].
    destruct i as [|i], j as [|j]; simpl in *; try lia.
    + injection H1 as <-. rewrite Forall_forall in Hall. apply Hall.
      apply list_elem_of_lookup. eauto.
    + apply (IH i j); [lia | lia | done | done].
Qed.

Lemma load_files_app gloss_ label_ (files : list PklFile) (acc : list Sample) :
  load_files gloss_ label_ files acc
  = acc ++ omap (fun f => match load_sample gloss_ label_ f with
                          | inr s => Some s
                          | inl _ => None
                          end) files.
Proof.
  revert acc. induction files as [|f files IH]; intros acc; simpl.
  - by rewrite app_nil_r.
  - destruct (load_sample gloss_ label_ f) as [e|s]; rewrite IH; [reflexivity|].
    by rewrite <- app_assoc.
Qed.

Lemma load_sample_fields gloss_ label_ f s :
  load_sample gloss_ label_ f = inr s ->
  gloss s = gloss_ /\ label s = label_ /\ file s = pf_name f.
Proof.
  unfold load_sample. destruct (pf_content f) as [d|]; [|discriminate].
  destruct (p_landmarks d) as [a|]; [|discriminate].
  destruct (if Nat.eqb (length (shape a)) 3 then getitem0 a else inr a) as [e|a1];
    simpl; [discriminate|].
  intros [= <-]. done.
Qed.

(** The samples of [load_dirs]: those given at the start, and for every
    directory of a target class, in order, the samples of its files that
    load. *)
Lemma load_dirs_elem `{L : StrLower} (dirs : list (string * list PklFile))
    (acc : list Sample) (s : Sample) :
  s ∈ load_dirs dirs acc <->
  s ∈ acc \/
  exists name files f,
    (name, files) ∈ dirs /\ f ∈ files /\
    label_to_idx (str_lower name) = Some (label s) /\
    load_sample (str_lower name) (label s) f = inr s.
Proof.
  revert acc. induction dirs as [|[name files] dirs IH]; intros acc; simpl.
  - split; [auto|]. intros [?|(n & fs & f & Hin & _)]; [done|].
    by apply elem_of_nil in Hin.
  - destruct (label_to_idx (str_lower name)) as [l|] eqn:Hl.
    + rewrite IH, load_files_app, elem_of_app, list_elem_of_omap. split.
      * intros [[Hacc|(f & Hf & Hs)]|(n & fs & f & Hin & Hrest)].
        -- by left.
        -- right. exists name, files, f.
           destruct (load_sample (str_lower name) l f) as [e|s'] eqn:Hload;
             [discriminate|].
           injection Hs as ->.
           destruct (load_sample_fields _ _ _ _ Hload) as (_ & <- & _).
           rewrite Hl. split; [left|]. done.
        -- right. exists n, fs, f. split; [by right | exact Hrest].
      * intros [Hacc|(n & fs & f & Hin & Hf & Hlab & Hload)]; [by left; left|].
        apply elem_of_cons in Hin as [[= -> ->]|Hin].
        -- left. right. exists f. split; [exact Hf|].
           rewrite Hl in Hlab. injection Hlab as ->. by rewrite Hload.
        -- right. exists n, fs, f. done.
    + rewrite IH. split.
      * intros [Hacc|(n & fs & f & Hin & Hrest)]; [by left|].
        right. exists n, fs, f. split; [by right | exact Hrest].
      * intros [Hacc|(n & fs & f & Hin & Hf & Hlab & Hload)]; [by left|].
        apply elem_of_cons in Hin as [[= -> ->]|Hin]; [congruence|].
        right. exists n, fs, f. done.
Qed.

(** X2.  The samples that [create_splits] loads are exactly the records
    that load from the files of the directories whose name, as
    [str.lower()] returns it, is a target class; each carries that
    lower-cased name as its gloss, the index of the name as its label
    (below 36) and the name of its file.  Directories of other names and
    records that fail to load contribute nothing. *)
Theorem loaded_samples_are_target_records (L : StrLower)
    (dirs : list (string * list PklFile)) (s : Sample) :
  s ∈ load_dirs dirs [] <->
  exists name files f,
    (name, files) ∈ dirs /\ f ∈ files /\
    gloss s = str_lower name /\ gloss s ∈ TARGET_CLASSES /\
    label_to_idx (gloss s) = Some (label s) /\ label s < 36 /\
    file s = pf_name f /\
    load_sample (gloss s) (label s) f = inr s.
Proof.
  rewrite load_dirs_elem. split.
  - intros [Hnil|(name & files & f & Hin & Hf & Hlab & Hload)];
      [by apply elem_of_nil in Hnil|].
    destruct (load_sample_fields _ _ _ _ Hload) as (Hg & _ & Hfile).
    exists name, files, f. rewrite Hg.
    destruct label_to_idx_bijection as (Htarget & Hlt & _).
    repeat split; try done.
    + apply Htarget. eauto.
    + by eapply Hlt.
  - intros (name & files & f & Hin & Hf & Hg & _ & Hlab & _ & _ & Hload).
    right. exists name, files, f. rewrite <- Hg. done.
Qed.

(** X3.  A record that fails to load is skipped and changes nothing else:
    the samples loaded from a directory are those loaded without that
    file, in the same order. *)
Theorem failed_record_is_skipped gloss_ label_
    (before after : list PklFile) (bad : PklFile) (e : exn) (acc : list Sample) :
  load_sample gloss_ label_ bad = inl e ->
  load_files gloss_ label_ (before ++ bad :: after) acc
  = load_files gloss_ label_ (before ++ after) acc.
Proof.
  intros Hbad. rewrite !load_files_app, !omap_app. simpl. by rewrite Hbad.
Qed.

Lemma failed_record_is_skipped_witness :
  load_files "a" 0 [frame_record "kaggle_a_0000.pkl" 1;
                    mkPklFile "broken.pkl" None;
                    frame_record "kaggle_a_0001.pkl" 2] []
  = load_files "a" 0 [frame_record "kaggle_a_0000.pkl" 1;
                      frame_record "kaggle_a_0001.pkl" 2] [].
Proof.
  apply (failed_record_is_skipped "a" 0 [frame_record "kaggle_a_0000.pkl" 1]
           [frame_record "kaggle_a_0001.pkl" 2] (mkPklFile "broken.pkl" None)
           (Exn "UnpicklingError" "broken.pkl") []).
  reflexivity.
Defined.

(** ** Label counts and the returned splits *)

Lemma count_labels_fold (labels : list nat) (counts : gmap nat nat) (l : nat) :
  default 0 (foldl (fun c x => <[x := default 0 (c !! x) + 1]> c) counts labels !! l)
  = default 0 (counts !! l) + length (filter (fun x => x = l) labels).
Proof.
  revert counts. induction labels as [|x labels IH]; intros counts; simpl.
  - lia.
  - rewrite IH. destruct (decide (x = l)) as [->|Hne].
    + rewrite lookup_insert_eq, filter_cons_True by done. simpl. lia.
    + rewrite lookup_insert_ne, filter_cons_False by done. lia.
Qed.

Lemma count_labels_present (labels : list nat) (counts : gmap nat nat) (l : nat) :
  is_Some (foldl (fun c x => <[x := default 0 (c !! x) + 1]> c) counts labels !! l)
  <-> is_Some (counts !! l) \/ l ∈ labels.
Proof.
  revert counts. induction labels as [|x labels IH]; intros counts; simpl.
  - split; [auto|]. intros [?|Hin]; [done|]. by apply elem_of_nil in Hin.
  - rewrite IH, elem_of_cons. destruct (decide (x = l)) as [->|Hne].
    + rewrite lookup_insert_eq. split; [auto|]. intros _. left. eauto.
    + rewrite lookup_insert_ne by done. split; [tauto|].
      intros [?|[?|?]]; [tauto | congruence | tauto].
Qed.

Lemma foldr_min_spec (v : nat) (vs : list nat) :
  foldr Nat.min v vs ∈ v :: vs /\ forall u, u ∈ v :: vs -> foldr Nat.min v vs <= u.
Proof.
  induction vs as [|w vs [IHin IHle]]; simpl.
  - split; [left|]. intros u Hu. apply list_elem_of_singleton in Hu. lia.
  - split.
    + destruct (Nat.min_spec w (foldr Nat.min v vs)) as [[_ ->]|[_ ->]].
      * right. left.
      * apply elem_of_cons in IHin as [->|Hin]; [left | right; by right].
    + intros u Hu.
      assert (Hcase : u = w \/ u ∈ v :: vs).
      { rewrite !elem_of_cons in *. tauto. }
      destruct Hcase as [->|Hu']; [lia|]. specialize (IHle u Hu'). lia.
Qed.

(** X4.  [label_counts] holds, for every label, the number of samples
    that carry it, and has no entry for a label that no sample carries.
    When there is a sample, [min_count] is the size of the smallest class:
    it is at least 1, some class has exactly that many samples and no
    class has fewer. *)
Theorem label_counts_are_class_sizes (all_labels : list nat) :
  (forall l, default 0 (count_labels all_labels !! l)
             = length (filter (fun x => x = l) all_labels)) /\
  (forall l, is_Some (count_labels all_labels !! l) <-> l ∈ all_labels) /\
  (all_labels = [] ->
   min_values (count_labels all_labels)
   = inl (ValueError "min() arg is an empty sequence")) /\
  (all_labels <> [] ->
   exists min_count,
     min_values (count_labels all_labels) = inr min_count /\
     1 <= min_count /\
     (exists l, l ∈ all_labels /\
                length (filter (fun x => x = l) all_labels) = min_count) /\
     (forall l, l ∈ all_labels ->
                min_count <= length (filter (fun x => x = l) all_labels))).
Proof.
  assert (Hcount : forall l, default 0 (count_labels all_labels !! l)
                             = length (filter (fun x => x = l) all_labels)).
  { intros l. unfold count_labels. rewrite count_labels_fold.
    by rewrite lookup_empty. }
  assert (Hpresent : forall l, is_Some (count_labels all_labels !! l) <-> l ∈ all_labels).
  { intros l. unfold count_labels. rewrite count_labels_present, lookup_empty.
    split; [intros [[? ?]|?]; done | auto]. }
  split; [exact Hcount|]. split; [exact Hpresent|]. split.
  - intros ->. reflexivity.
  - intros Hne. unfold min_values.
    destruct ((map_to_list (count_labels all_labels)).*2) as [|v vs] eqn:Hvals.
    { apply fmap_nil_inv, map_to_list_empty_iff in Hvals.
      by apply count_labels_nonempty in Hne. }
    exists (foldr Nat.min v vs). split; [reflexivity|].
    destruct (foldr_min_spec v vs) as [Hin Hle]. rewrite <- Hvals in Hin, Hle.
    assert (Hval : forall u, u ∈ (map_to_list (count_labels all_labels)).*2 <->
                             exists l, l ∈ all_labels /\
                                       length (filter (fun x => x = l) all_labels) = u).
    { intros u. rewrite list_elem_of_fmap. split.
      - intros ([l u'] & -> & Hlu). apply elem_of_map_to_list in Hlu. simpl.
        exists l. split; [apply Hpresent; eauto|].
        rewrite <- Hcount, Hlu. reflexivity.
      - intros (l & Hl & <-). apply Hpresent in Hl as [u Hu].
        exists (l, u). split; [|by apply elem_of_map_to_list].
        simpl. rewrite <- Hcount, Hu. reflexivity. }
    assert (Hattained := proj1 (Hval _) Hin).
    split; [|split; [exact Hattained|]].
    + destruct Hattained as (l & Hl & <-).
      assert (Hin' : l ∈ filter (fun x => x = l) all_labels).
      { apply list_elem_of_filter. done. }
      destruct (filter (fun x => x = l) all_labels); [|simpl; lia].
      by apply elem_of_nil in Hin'.
    + intros l Hl. apply Hle, Hval. eauto.
Qed.

Lemma select_elem {A : Type} (xs : list A) (idx : list nat) (ys : list A) (y : A) :
  select xs idx = inr ys -> y ∈ ys -> y ∈ xs.
Proof.
  revert ys. induction idx as [|i idx IH]; intros ys; simpl.
  - intros [= <-] Hy. by apply elem_of_nil in Hy.
  - destruct (xs !! i) as [x|] eqn:Hx; [|discriminate].
    destruct (select xs idx) as [e|zs]; simpl; [discriminate|].
    intros [= <-] [->|Hy]%elem_of_cons.
    + apply list_elem_of_lookup. eauto.
    + by eapply IH.
Qed.

Lemma report_split_nonempty (split_data : list Sample) (n : nat) :
  report_split split_data = inr n -> split_data <> [].
Proof. intros Hr ->. discriminate. Qed.

(** X5.  Whenever [create_splits] returns, none of the three splits is
    empty (the closing report takes the minimum of the class counts of each
    split, and raises on an empty one), every sample of a split is one of
    the loaded samples, and the metadata records 36 classes, 63 features,
    the three sizes and the three ratios of the call. *)
Theorem returned_splits_are_nonempty (L : StrLower) (SK : Sklearn)
    (dirs : list (string * list PklFile)) (train_ratio val_ratio test_ratio : Q)
    (random_state : Z) (splits : Splits) (metadata : Metadata) :
  create_splits dirs train_ratio val_ratio test_ratio random_state
  = inr (splits, metadata) ->
  train splits <> [] /\ val splits <> [] /\ test splits <> [] /\
  (forall s, s ∈ train splits \/ s ∈ val splits \/ s ∈ test splits ->
             s ∈ load_dirs dirs []) /\
  md_num_classes metadata = 36 /\
  md_num_features metadata = 63 /\
  md_splits metadata
  = (length (train splits), length (val splits), length (test splits)) /\
  md_ratios metadata = (train_ratio, val_ratio, test_ratio).
Proof.
  unfold create_splits.
  destruct (split_indices _ _ _ _ _) as [e0|[[train_idx val_idx] test_idx]];
    simpl; [discriminate|].
  destruct (select _ train_idx) as [e1|train_] eqn:S1; simpl; [discriminate|].
  destruct (select _ val_idx) as [e2|val_] eqn:S2; simpl; [discriminate|].
  destruct (select _ test_idx) as [e3|test_] eqn:S3; simpl; [discriminate|].
  destruct (split_arrays train_) as [?|?]; simpl; [discriminate|].
  destruct (split_arrays val_) as [?|?]; simpl; [discriminate|].
  destruct (split_arrays test_) as [?|?]; simpl; [discriminate|].
  destruct (report_split train_) as [?|n1] eqn:R1; simpl; [discriminate|].
  destruct (report_split val_) as [?|n2] eqn:R2; simpl; [discriminate|].
  destruct (report_split test_) as [?|n3] eqn:R3; simpl; [discriminate|].
  intros [= <- <-]. simpl.
  apply report_split_nonempty in R1, R2, R3.
  split; [exact R1|]. split; [exact R2|]. split; [exact R3|].
  split; [|repeat split; reflexivity].
  intros s [Hs|[Hs|Hs]].
  - exact (select_elem _ _ _ _ S1 Hs).
  - exact (select_elem _ _ _ _ S2 Hs).
  - exact (select_elem _ _ _ _ S3 Hs).
Qed.

Lemma returned_splits_are_nonempty_witness :
  exists splits metadata,
    @create_splits ascii_names cut_sklearn two_classes (7 # 10) (15 # 100) (15 # 100) 42
    = inr (splits, metadata) /\
    train splits <> [] /\ val splits <> [] /\ test splits <> [].
Proof.
  eexists _, _. split; [vm_compute; reflexivity|].
  match goal with
  | |- train ?s <> [] /\ _ =>
      destruct (returned_splits_are_nonempty ascii_names cut_sklearn two_classes
                  (7 # 10) (15 # 100) (15 # 100) 42 s _
                  ltac:(vm_compute; reflexivity)) as (H1 & H2 & H3 & _)
  end.
  split; [exact H1 | split; [exact H2 | exact H3]].
Defined.

(** ** The recorded history *)

Lemma count_eq_le (predicted labels : list nat) :
  count_eq predicted labels <= length labels.
Proof.
  revert labels. induction predicted as [|p ps IH]; intros [|l ls]; simpl; try lia.
  specialize (IH ls). destruct (Nat.eqb p l); lia.
Qed.

Lemma percent_bounds (c n : nat) :
  c <= n -> n <> 0 ->
  (0 <= 100 * Qnat c / Qnat n)%Q /\ (100 * Qnat c / Qnat n <= 100)%Q.
Proof.
  intros Hc Hn.
  assert (Hpos : (0 < Qnat n)%Q).
  { unfold Qnat. rewrite <- (Zlt_Qlt 0). lia. }
  assert (Hc0 : (0 <= Qnat c)%Q).
  { unfold Qnat. rewrite <- (Zle_Qle 0). lia. }
  assert (Hcn : (Qnat c <= Qnat n)%Q).
  { unfold Qnat. rewrite <- Zle_Qle. lia. }
  split.
  - apply Qle_shift_div_l; [exact Hpos|]. rewrite Qmult_0_l.
    apply Qmult_le_0_compat; [discriminate | exact Hc0].
  - apply Qle_shift_div_r; [exact Hpos|].
    apply Qmult_le_l; [reflexivity | exact Hcn].
Qed.

Section HistoryFacts.
Context `{N : Net}.

Lemma train_trace_correct (groups : list (list Item)) (m : Model) (ss : list BatchStat) :
  train_trace m groups = inr ss ->
  sum_correct ss <= sum_labels ss.
Proof.
  revert m ss. induction groups as [|g rest IH]; intros m ss; simpl.
  - intros [= <-]. reflexivity.
  - destruct (collate g) as [e|b]; simpl; [discriminate|].
    destruct (train_step m b) as [e|[m1 s]] eqn:Hstep; simpl; [discriminate|].
    destruct (train_trace m1 rest) as [e|ss'] eqn:Hrest; simpl; [discriminate|].
    intros [= <-]. apply IH in Hrest.
    unfold sum_correct, sum_labels in *. simpl.
    assert (bs_correct s <= bs_labels s); [|lia].
    unfold train_step in Hstep.
    destruct (forward true m (b_inputs b)) as [e|o]; simpl in Hstep; [discriminate|].
    destruct (checked_criterion o (b_labels b)) as [e|l]; simpl in Hstep; [discriminate|].
    destruct (optimizer_step m (b_inputs b) (b_labels b)) as [e|m2]; simpl in Hstep;
      [discriminate|].
    destruct (max1 o) as [e|p]; simpl in Hstep; [discriminate|].
    injection Hstep as _ <-. simpl. apply count_eq_le.
Qed.

Lemma val_trace_correct (groups : list (list Item)) (m : Model) (ss : list BatchStat) :
  val_trace m groups = inr ss ->
  sum_correct ss <= sum_labels ss.
Proof.
  revert ss. induction groups as [|g rest IH]; intros ss; simpl.
  - intros [= <-]. reflexivity.
  - destruct (collate g) as [e|b]; simpl; [discriminate|].
    destruct (eval_step m b) as [e|s] eqn:Hstep; simpl; [discriminate|].
    destruct (val_trace m rest) as [e|ss'] eqn:Hrest; simpl; [discriminate|].
    intros [= <-]. pose proof (IH ss' eq_refl) as Hrest'.
    unfold sum_correct, sum_labels in *. simpl.
    assert (bs_correct s <= bs_labels s); [|lia].
    unfold eval_step in Hstep.
    destruct (forward false m (b_inputs b)) as [e|o]; simpl in Hstep; [discriminate|].
    destruct (checked_criterion o (b_labels b)) as [e|l]; simpl in Hstep; [discriminate|].
    destruct (max1 o) as [e|p]; simpl in Hstep; [discriminate|].
    injection Hstep as <-. simpl. apply count_eq_le.
Qed.

Lemma run_epoch_percent (m m1 : Model) (tm vm : Q * Q) :
  run_epoch m = inr (m1, tm, vm) -> percent (snd tm) /\ percent (snd vm).
Proof.
  unfold run_epoch.
  destruct (train_pass m zero_totals (train_loader m)) as [e|[m' t]] eqn:Ht;
    simpl; [discriminate|].
  destruct (epoch_metrics t) as [e|[tl ta]] eqn:Htm; simpl; [discriminate|].
  destruct (val_pass m' zero_totals val_loader) as [e|v] eqn:Hv; simpl; [discriminate|].
  destruct (epoch_metrics v) as [e|[vl va]] eqn:Hvm; simpl; [discriminate|].
  intros [= <- <- <-]. simpl.
  apply train_pass_trace in Ht as (ts & Hts & ->).
  apply val_pass_trace in Hv as (vs & Hvs & ->).
  apply epoch_metrics_sums in Htm as (Hn1 & _ & Hta).
  apply epoch_metrics_sums in Hvm as (Hn2 & _ & Hva).
  apply train_trace_correct in Hts. apply val_trace_correct in Hvs.
  unfold percent. rewrite Hta, Hva.
  split; apply percent_bounds; assumption.
Qed.

(** One turn of the loop, with the epoch it ran. *)
Lemma epochs_loop_turn ckpt_path extra patience n epoch (st st' : LoopState) :
  epochs_loop ckpt_path extra patience (S n) epoch st = inr st' ->
  exists m1 tm vm st2,
    run_epoch (ls_model st) = inr (m1, tm, vm) /\
    ls_history st2 = append_history (ls_history st) tm vm /\
    (ls_best_val_acc st2 = ls_best_val_acc st \/ ls_best_val_acc st2 = snd vm) /\
    (st' = st2 \/
     epochs_loop ckpt_path extra patience n (S epoch) st2 = inr st').
Proof.
  simpl. unfold epoch_body.
  destruct (run_epoch (ls_model st)) as [e|[[m1 tm] vm]]; simpl; [discriminate|].
  unfold early_stopping. simpl.
  destruct (Qlt_le_dec (ls_best_val_acc st) (snd vm)); simpl.
  - intros Hloop. eexists m1, tm, vm, _. split; [reflexivity|].
    split; [|split; [|right; exact Hloop]]; [reflexivity | by right].
  - destruct (patience <=? ls_epochs_without_improvement st + 1)%Z; simpl.
    + intros [= <-]. eexists m1, tm, vm, _. split; [reflexivity|].
      split; [|split; [|left; reflexivity]]; [reflexivity | by left].
    + intros Hloop. eexists m1, tm, vm, _. split; [reflexivity|].
      split; [|split; [|right; exact Hloop]]; [reflexivity | by left].
Qed.

Lemma epochs_loop_history ckpt_path extra patience n :
  forall epoch (st st' : LoopState),
    epochs_loop ckpt_path extra patience n epoch st = inr st' ->
    exists tl ta vl va,
      ls_history st'
      = {| train_loss := train_loss (ls_history st) ++ tl;
           train_acc := train_acc (ls_history st) ++ ta;
           val_loss := val_loss (ls_history st) ++ vl;
           val_acc := val_acc (ls_history st) ++ va |} /\
      length tl = length va /\ length ta = length va /\ length vl = length va /\
      length va <= n /\
      Forall percent ta /\ Forall percent va /\
      (ls_best_val_acc st' = ls_best_val_acc st \/ ls_best_val_acc st' ∈ va).
Proof.
  induction n as [|n IH]; intros epoch st st' Hloop.
  - injection Hloop as <-. exists [], [], [], [].
    rewrite !app_nil_r. destruct (ls_history st). simpl.
    split; [reflexivity|]. do 4 (split; [reflexivity|]).
    split; [constructor|]. split; [constructor|]. by left.
  - apply epochs_loop_turn in Hloop
      as (m1 & tm & vm & st2 & Hrun & Hhist & Hbest & Hcases).
    apply run_epoch_percent in Hrun as [Hpt Hpv].
    destruct Hcases as [->|Hrest].
    + exists [fst tm], [snd tm], [fst vm], [snd vm]. rewrite Hhist.
      split; [reflexivity|]. do 3 (split; [reflexivity|]).
      split; [simpl; lia|].
      split; [constructor; [exact Hpt | constructor]|].
      split; [constructor; [exact Hpv | constructor]|].
      destruct Hbest as [->| ->]; [by left | right; left].
    + apply IH in Hrest
        as (tl & ta & vl & va & Hh & L1 & L2 & L3 & Ln & Pt & Pv & Hb).
      exists (fst tm :: tl), (snd tm :: ta), (fst vm :: vl), (snd vm :: va).
      rewrite Hh, Hhist. unfold append_history. simpl.
      rewrite <- !app_assoc. simpl.
      split; [reflexivity|]. do 4 (split; [lia|]).
      split; [constructor; [exact Hpt | exact Pt]|].
      split; [constructor; [exact Hpv | exact Pv]|].
      destruct Hb as [Hb|Hb].
      * rewrite Hb. destruct Hbest as [->| ->]; [by left | right; left].
      * right. by right.
Qed.

End HistoryFacts.

(** X6.  When the training loop returns, the four lists of the history
    have the same length, one entry per epoch that ran, and at most
    [epochs] of them (none when [epochs] is not positive); every recorded
    training and validation accuracy lies between 0 and 100, and so does
    the returned best validation accuracy, which is 0 or one of the
    recorded validation accuracies; the history file holds the returned
    history. *)
Theorem history_is_well_formed `(N : Net) (ckpt_path hist_path : string)
    (extra : CkExtra) (epochs patience : Z) (model m' : Model) (fs fs' : FS Weights)
    (hist : History) (best : Q) :
  training_loop ckpt_path hist_path extra epochs patience model fs
  = (inr (m', hist, best), fs') ->
  length (train_loss hist) = length (val_acc hist) /\
  length (train_acc hist) = length (val_acc hist) /\
  length (val_loss hist) = length (val_acc hist) /\
  length (val_acc hist) <= Z.to_nat epochs /\
  Forall percent (train_acc hist) /\
  Forall percent (val_acc hist) /\
  percent best /\
  (best = 0%Q \/ best ∈ val_acc hist) /\
  fs' !! hist_path = Some (HistoryFile hist).
Proof.
  unfold training_loop.
  destruct (epochs_loop _ _ _ _ _ _) as [[e fs1]|st] eqn:Hloop; [discriminate|].
  intros [= <- <- <- <-].
  apply epochs_loop_history in Hloop
    as (tl & ta & vl & va & Hh & L1 & L2 & L3 & Ln & Pt & Pv & Hb).
  simpl in Hh, Hb. rewrite Hh. simpl.
  repeat (split; [assumption|]).
  split; [|split; [exact Hb | apply lookup_insert_eq]].
  destruct Hb as [->|Hin].
  - split; discriminate.
  - rewrite Forall_forall in Pv. by apply Pv.
Qed.

Lemma history_is_well_formed_witness :
  exists m' hist best fs',
    @training_loop _ scripted_ab "c" "h" (HiddenSizes [256; 128; 64]) 3 2 0 ∅
    = (inr (m', hist, best), fs') /\
    length (train_loss hist) = length (val_acc hist) /\
    percent best.
Proof.
  eexists _, _, _, _. split; [vm_compute; reflexivity|].
  match goal with
  | |- length (train_loss ?h) = _ /\ percent ?b =>
      pose proof (history_is_well_formed scripted_ab "c" "h"
                    (HiddenSizes [256; 128; 64]) 3 2 0 _ ∅ _ h b
                    ltac:(vm_compute; reflexivity)) as Hwf
  end.
  split; [exact (proj1 Hwf) | exact (proj1 (proj2 (proj2 (proj2 (proj2 (proj2 (proj2 Hwf)))))))].
Defined.

(** ** Files written by a run *)

Lemma string_length_app (s t : string) :
  String.length (s ++ t) = String.length s + String.length t.
Proof. induction s as [|a s IH]; simpl; [reflexivity | by rewrite IH]. Qed.

Lemma string_app_inj_r (s1 s2 t : string) : (s1 ++ t = s2 ++ t)%string -> s1 = s2.
Proof.
  revert s2. induction s1 as [|a s1 IH]; intros [|b s2] Heq; simpl in Heq.
  - reflexivity.
  - apply (f_equal String.length) in Heq. simpl in Heq.
    rewrite !string_length_app in Heq. simpl in Heq. lia.
  - apply (f_equal String.length) in Heq. simpl in Heq.
    rewrite !string_length_app in Heq. simpl in Heq. lia.
  - injection Heq as -> Heq. f_equal. by apply IH.
Qed.

Lemma best_model_path_inj (n1 n2 : string) :
  best_model_path n1 = best_model_path n2 -> n1 = n2.
Proof.
  unfold best_model_path. intros Heq.
  apply (inj (String.app "best_model_")) in Heq. by apply string_app_inj_r in Heq.
Qed.

Lemma history_path_inj (n1 n2 : string) :
  history_path n1 = history_path n2 -> n1 = n2.
Proof.
  unfold history_path. intros Heq.
  apply (inj (String.app "history_")) in Heq. by apply string_app_inj_r in Heq.
Qed.

(** X7.  A run of the training loop whose validation accuracy never
    exceeds 0, with a patience of at least 1, runs exactly [patience]
    epochs, or all [epochs] of the range if that is fewer. *)
Theorem stalled_run_stops_after_patience `(N : Net) (ckpt_path hist_path : string)
    (extra : CkExtra) (epochs patience : Z) (model m' : Model) (fs fs' : FS Weights)
    (hist : History) (best : Q) :
  (1 <= patience)%Z ->
  training_loop ckpt_path hist_path extra epochs patience model fs
  = (inr (m', hist, best), fs') ->
  (forall v, v ∈ val_acc hist -> (v <= 0)%Q) ->
  length (val_acc hist) = Nat.min (Z.to_nat epochs) (Z.to_nat patience).
Proof.
  intros Hp. unfold training_loop.
  destruct (epochs_loop _ _ _ _ _ _) as [[e fs1]|st] eqn:Hloop; [discriminate|].
  intros [= <- <- <- <-] Hall.
  apply epochs_loop_length in Hloop as (new & Hnew & Hnone & _); simpl; [|lia|lia].
  simpl in Hnew, Hnone. rewrite Hnew in *. rewrite Hnone by exact Hall.
  by rewrite Z.sub_0_r.
Qed.

Lemma stalled_run_stops_after_patience_witness :
  exists m' hist best fs',
    @training_loop _ scripted_never "c" "h" (HiddenSizes [256; 128; 64]) 5 2 0 ∅
    = (inr (m', hist, best), fs') /\
    length (val_acc hist) = 2.
Proof.
  eexists _, (mkHistory _ _ _ [0 # 1; 0 # 1]%Q), _, _.
  split; [vm_compute; reflexivity|].
  eapply (stalled_run_stops_after_patience scripted_never "c" "h"
            (HiddenSizes [256; 128; 64]) 5 2 0 _ ∅).
  - lia.
  - vm_compute. reflexivity.
  - intros v Hv. simpl in Hv.
    repeat (apply elem_of_cons in Hv as [->|Hv]; [discriminate|]).
    by apply elem_of_nil in Hv.
Defined.

(** X8.  The training loop writes to two files only, its checkpoint file
    and its history file: every other file of the directory is as before,
    whether the loop returns or raises.  When it raises, the history file
    is not written either: the history of the epochs that ran is lost. *)
Theorem training_writes_two_files `(N : Net) (ckpt_path hist_path : string)
    (extra : CkExtra) (epochs patience : Z) (model : Model) (fs : FS Weights) :
  (forall p : string,
      p <> ckpt_path -> p <> hist_path ->
      snd (training_loop ckpt_path hist_path extra epochs patience model fs) !! p
      = fs !! p) /\
  (forall e fs',
      ckpt_path <> hist_path ->
      training_loop ckpt_path hist_path extra epochs patience model fs = (inl e, fs') ->
      fs' !! hist_path = fs !! hist_path).
Proof.
  unfold training_loop. split.
  - intros p Hc Hh.
    pose proof (epochs_loop_other_files ckpt_path extra patience p (Z.to_nat epochs) Hc 0
                  {| ls_model := model;
                     ls_history := empty_history;
                     ls_best_val_acc := 0;
                     ls_epochs_without_improvement := 0;
                     ls_files := fs |}) as Hloop.
    destruct (epochs_loop _ _ _ _ _ _) as [[e fs']|st']; simpl in *; [exact Hloop|].
    rewrite lookup_insert_ne by congruence. exact Hloop.
  - intros e fs' Hne.
    pose proof (epochs_loop_other_files ckpt_path extra patience hist_path
                  (Z.to_nat epochs) (not_eq_sym Hne) 0
                  {| ls_model := model;
                     ls_history := empty_history;
                     ls_best_val_acc := 0;
                     ls_epochs_without_improvement := 0;
                     ls_files := fs |}) as Hloop.
    destruct (epochs_loop _ _ _ _ _ _) as [[e1 fs1]|st']; [|discriminate].
    intros [= _ <-]. exact Hloop.
Qed.

Lemma training_writes_two_files_witness :
  exists fs',
    @training_loop _ kind_net "c" "h" (ModelName "gru") 100 15 (3, 0) ∅
    = (inl (RuntimeError "forward failed"), fs') /\
    fs' !! "h" = (∅ : FS (nat * nat)) !! "h".
Proof.
  exists ∅. split; [vm_compute; reflexivity|].
  apply (proj2 (training_writes_two_files kind_net "c" "h" (ModelName "gru")
                  100 15 (3, 0) ∅)
           (RuntimeError "forward failed") ∅).
  - discriminate.
  - vm_compute. reflexivity.
Defined.

(** X9.  Training or running one model of the comparison never touches
    the checkpoint or the history of a model with another name. *)
Theorem models_do_not_share_files `(N : Net) (model : Model)
    (model_name other : string) (epochs patience : Z)
    (results : list (string * ModelResult)) (fs : FS Weights) :
  model_name <> other ->
  snd (train_model model model_name epochs patience fs) !! best_model_path other
  = fs !! best_model_path other /\
  snd (train_model model model_name epochs patience fs) !! history_path other
  = fs !! history_path other /\
  snd (run_one model model_name results fs) !! best_model_path other
  = fs !! best_model_path other /\
  snd (run_one model model_name results fs) !! history_path other
  = fs !! history_path other.
Proof.
  intros Hne.
  assert (H1 : best_model_path other <> best_model_path model_name).
  { intros Heq. apply best_model_path_inj in Heq. congruence. }
  assert (H2 : best_model_path other <> history_path model_name) by discriminate.
  assert (H3 : history_path other <> best_model_path model_name) by discriminate.
  assert (H4 : history_path other <> history_path model_name).
  { intros Heq. apply history_path_inj in Heq. congruence. }
  split; [by apply train_model_other_files|].
  split; [by apply train_model_other_files|].
  split; by apply run_one_other_files.
Qed.

Lemma models_do_not_share_files_witness :
  snd (@train_model _ kind_net (3, 0) "transformer" 100 15 ∅) !! best_model_path "gru"
  = (∅ : FS (nat * nat)) !! best_model_path "gru".
Proof.
  apply (models_do_not_share_files kind_net (3, 0) "transformer" "gru" 100 15 [] ∅).
  discriminate.
Defined.

(** ** Evaluation *)

Lemma accuracy_percent (all_preds all_labels : list nat) (a : Q) :
  accuracy all_preds all_labels = inr (Some a) -> percent a.
Proof.
  unfold accuracy.
  destruct (Nat.eqb_spec (length all_preds) (length all_labels)) as [Hlen|];
    simpl; [|discriminate].
  destruct (Nat.eqb_spec (length all_preds) 0) as [|Hn]; [discriminate|].
  intros [= <-].
  pose proof (count_eq_le all_preds all_labels) as Hc. rewrite <- Hlen in Hc.
  destruct (percent_bounds _ _ Hc Hn) as [H0 H100].
  assert (Heq : (Qnat (count_eq all_preds all_labels) / Qnat (length all_preds) * 100
                 == 100 * Qnat (count_eq all_preds all_labels)
                    / Qnat (length all_preds))%Q).
  { field. by apply Qnat_nonzero. }
  unfold percent. rewrite Heq. split; assumption.
Qed.

Lemma evaluate_model_reads_checkpoint_aux `{N : Net} (model : Model)
    (model_name : string) (fs : FS Weights) (acc : option Q) (m' : Model) :
  fst (evaluate_model model model_name fs) = inr (acc, m') ->
  exists c,
    fs !! best_model_path model_name = Some (CkptFile c) /\
    m' = load_state_dict model (ck_model_state_dict c) /\
    (forall a, acc = Some a -> percent a).
Proof.
  unfold evaluate_model.
  destruct (fs !! best_model_path model_name) as [[c|h|r]|]; simpl; try discriminate.
  destruct (test_pass _ [] [] test_loader) as [e|[ps ls]]; simpl; [discriminate|].
  destruct (accuracy ps ls) as [e|acc'] eqn:Hacc; simpl; [discriminate|].
  intros [= <- <-]. exists c. split; [reflexivity|]. split; [reflexivity|].
  intros a ->. by eapply accuracy_percent.
Qed.

(** X10.  [evaluate_model] never writes to the output directory.  Without
    a checkpoint file for the model it raises [FileNotFoundError].  When
    it returns, the model it evaluated is the given one with the weights
    of the checkpoint file loaded, and the test accuracy, when there is at
    least one test sample, lies between 0 and 100. *)
Theorem evaluate_model_reads_checkpoint `(N : Net) (model : Model)
    (model_name : string) (fs : FS Weights) :
  snd (evaluate_model model model_name fs) = fs /\
  (fs !! best_model_path model_name = None ->
   fst (evaluate_model model model_name fs)
   = inl (FileNotFoundError (best_model_path model_name))) /\
  (forall acc m',
      fst (evaluate_model model model_name fs) = inr (acc, m') ->
      exists c,
        fs !! best_model_path model_name = Some (CkptFile c) /\
        m' = load_state_dict model (ck_model_state_dict c) /\
        (forall a, acc = Some a -> percent a)).
Proof.
  split; [apply evaluate_model_files|]. unfold evaluate_model. split.
  - intros ->. reflexivity.
  - intros acc m'. apply evaluate_model_reads_checkpoint_aux.
Qed.

(** X11.  In a block of [run_all], a model whose validation accuracy never
    exceeds 0 gets no checkpoint from its training.  If the directory held
    no checkpoint for it, its evaluation raises [FileNotFoundError] and so
    does the block; if the directory held one, left by an earlier run, the
    evaluation loads the weights of that old checkpoint. *)
Theorem unbeaten_model_is_not_evaluated `(N : Net) (model m1 : Model)
    (model_name : string) (results : list (string * ModelResult))
    (fs fs1 : FS Weights) (hist : History) (best : Q) :
  train_model model model_name 100 15 fs = (inr (m1, hist, best), fs1) ->
  (forall v, v ∈ val_acc hist -> (v <= 0)%Q) ->
  (fs !! best_model_path model_name = None ->
   run_one model model_name results fs
   = (inl (FileNotFoundError (best_model_path model_name)), fs1)) /\
  (forall c,
      fs !! best_model_path model_name = Some (CkptFile c) ->
      fs1 !! best_model_path model_name = Some (CkptFile c) /\
      forall acc m2,
        fst (evaluate_model m1 model_name fs1) = inr (acc, m2) ->
        m2 = load_state_dict m1 (ck_model_state_dict c)).
Proof.
  intros Htrain Hall.
  assert (Hkept : fs1 !! best_model_path model_name = fs !! best_model_path model_name).
  { unfold train_model in Htrain.
    eapply training_loop_best in Htrain; [|discriminate].
    destruct Htrain as [_ Hnone]. by destruct (Hnone Hall). }
  split.
  - intros Hfresh. unfold run_one, fio_bind. rewrite Htrain. simpl.
    unfold evaluate_model. rewrite Hkept, Hfresh. reflexivity.
  - intros c Hc. rewrite Hkept. split; [exact Hc|].
    intros acc m2 Heval.
    destruct (evaluate_model_reads_checkpoint_aux m1 model_name fs1 acc m2 Heval)
      as (c' & Hc' & -> & _).
    rewrite Hkept, Hc in Hc'. by injection Hc' as <-.
Qed.

Lemma evaluate_model_reads_checkpoint_witness :
  @evaluate_model _ kind_net (0, 0) "transformer" ∅
  = (inl (FileNotFoundError "best_model_transformer.pth"), ∅).
Proof.
  destruct (evaluate_model_reads_checkpoint kind_net (0, 0) "transformer" ∅)
    as (Hfs & Hnone & _).
  specialize (Hnone eq_refl).
  destruct (@evaluate_model _ kind_net (0, 0) "transformer" ∅) as [r fs'].
  simpl in Hfs, Hnone. by rewrite Hfs, Hnone.
Defined.

Lemma unbeaten_model_is_not_evaluated_witness :
  exists fs1,
    @run_one _ scripted_never 0 "mlp" [] ∅
    = (inl (FileNotFoundError "best_model_mlp.pth"), fs1).
Proof.
  eexists.
  eapply (unbeaten_model_is_not_evaluated scripted_never 0 _ "mlp" [] ∅ _
            (mkHistory _ _ _ (replicate 15 (0 # 1)%Q)) _).
  - vm_compute. reflexivity.
  - intros v Hv. apply list_elem_of_In in Hv. simpl in Hv.
    repeat (destruct Hv as [<-|Hv]; [discriminate|]). contradiction.
  - reflexivity.
Defined.

(** ** Items, batches and the rows below the lengths *)

Section FetchFacts.
Variable D : nat.





(** X13.  A batch of sequences that all have the same length is not
    padded: [pad_sequence] returns the sequences as they are. *)
Theorem equal_lengths_need_no_padding (sequences : list (list (Row D))) (L : nat) :
  sequences <> [] ->
  (forall s, s ∈ sequences -> length s = L) ->
  pad_sequence D sequences = inr sequences.
Proof.
  intros Hne Hall. unfold pad_sequence.
  destruct sequences as [|s0 rest] eqn:Hs; [contradiction|]. rewrite <- Hs in *.
  f_equal.
  assert (Hmax : foldr Nat.max 0 (List.map (@length (Row D)) sequences) = L).
  { rewrite Hs in *. clear Hs Hne.
    assert (H0 : length s0 = L) by (apply Hall; left).
    assert (Hrest : forall s, s ∈ rest -> length s = L)
      by (intros s Hin; apply Hall; by right).
    clear Hall. simpl. rewrite H0.
    induction rest as [|s rest IH]; simpl; [lia|].
    rewrite (Hrest s) by left.
    assert (foldr Nat.max 0 (List.map length rest) <= L); [|lia].
    clear IH. induction rest as [|s' rest IH']; simpl; [lia|].
    rewrite (Hrest s') by (right; left).
    assert (foldr Nat.max 0 (List.map length rest) <= L); [|lia].
    apply IH'. intros s'' Hin. apply Hrest.
    rewrite !elem_of_cons in *. tauto. }
  rewrite Hmax. clear Hmax Hs Hne.
  induction sequences as [|s rest' IH]; simpl; [reflexivity|].
  rewrite IH by (intros s' Hin; apply Hall; by right).
  f_equal. unfold write_prefix.
  rewrite (Hall s) by left.
  by rewrite drop_ge, app_nil_r by (rewrite length_replicate; lia).
Qed.

End FetchFacts.


Lemma equal_lengths_need_no_padding_witness :
  pad_sequence 1 [ [ [# 1%Q] ]; [ [# 2%Q] ] ] = inr [ [ [# 1%Q] ]; [ [# 2%Q] ] ].
Proof.
  apply (equal_lengths_need_no_padding 1 _ 1); [discriminate|].
  intros s Hs. repeat (apply elem_of_cons in Hs as [->|Hs]; [reflexivity|]).
  by apply elem_of_nil in Hs.
Defined.

(** ** The per-class report of [Trainer.evaluate] *)

Lemma sum_list_cons (x : nat) (l : list nat) : sum_list (x :: l) = x + sum_list l.
Proof. reflexivity. Qed.

Lemma sum_values_insert (d : gmap string nat) (k : string) (v : nat) :
  sum_values (<[k := v]> d) + default 0 (d !! k) = sum_values d + v.
Proof.
  unfold sum_values. destruct (d !! k) as [x|] eqn:Hk; simpl.
  - rewrite <- (insert_delete_eq d k v).
    rewrite map_to_list_insert by apply lookup_delete_eq.
    rewrite <- (map_to_list_delete d k x Hk).
    rewrite !fmap_cons, !sum_list_cons. simpl. lia.
  - rewrite map_to_list_insert by exact Hk.
    rewrite !fmap_cons, !sum_list_cons. simpl. lia.
Qed.

Lemma sum_over_keys (d : gmap string nat) (keys : list string) :
  keys ≡ₚ (map_to_list d).*1 ->
  sum_list (List.map (fun k => default 0 (d !! k)) keys) = sum_values d.
Proof.
  intros Hperm. unfold sum_values.
  assert (Hmap : List.map (fun k => default 0 (d !! k)) keys
                 ≡ₚ List.map (fun k => default 0 (d !! k)) (map_to_list d).*1).
  { change (List.map ?f ?l) with (f <$> l). by rewrite Hperm. }
  rewrite Hmap. f_equal.
  assert (Hgen : forall l : list (string * nat),
             (forall kv, kv ∈ l -> d !! fst kv = Some (snd kv)) ->
             List.map (fun k => default 0 (d !! k)) l.*1 = l.*2).
  { induction l as [|[k v] l IH]; intros Hall; simpl; [reflexivity|].
    pose proof (Hall (k, v) ltac:(left)) as Hkv. simpl in Hkv. rewrite Hkv.
    simpl. f_equal. apply IH. intros kv Hin. apply Hall. by right. }
  apply Hgen. intros [k v] Hin. by apply elem_of_map_to_list in Hin.
Qed.

Lemma count_eq_zip (predicted labels : list nat) :
  count_eq predicted labels = count_agree (zip predicted labels).
Proof.
  unfold count_agree.
  revert labels. induction predicted as [|p ps IH]; intros [|l ls]; simpl;
    try reflexivity.
  rewrite IH. destruct (Nat.eqb_spec p l) as [->|Hne].
  - by rewrite filter_cons_True.
  - by rewrite filter_cons_False.
Qed.

(** One turn of the tally, on dicts with the same keys. *)
Lemma tally_step (idx_to_label : nat -> option string) (pred label_ : nat)
    (rest : list (nat * nat)) (label_name : string)
    (class_correct class_total : gmap string nat) :
  idx_to_label label_ = Some label_name ->
  (forall k, is_Some (class_correct !! k) <-> is_Some (class_total !! k)) ->
  tally idx_to_label ((pred, label_) :: rest) class_correct class_total
  = tally idx_to_label rest
      (<[label_name := default 0 (class_correct !! label_name)
                       + (if Nat.eqb pred label_ then 1 else 0)]> class_correct)
      (<[label_name := default 0 (class_total !! label_name) + 1]> class_total).
Proof.
  intros Hname Hdom. cbn [tally]. rewrite Hname.
  destruct (class_total !! label_name) as [t|] eqn:Ht.
  - destruct (Hdom label_name) as [_ [c Hc]]; [rewrite Ht; eauto|].
    rewrite Ht, Hc. cbn [default].
    destruct (Nat.eqb pred label_); [reflexivity|].
    rewrite Nat.add_0_r. f_equal. symmetry. by apply insert_id.
  - assert (Hc : class_correct !! label_name = None).
    { destruct (class_correct !! label_name) eqn:Hc; [|reflexivity].
      destruct (Hdom label_name) as [[? Hsome] _]; [rewrite Hc; eauto|].
      congruence. }
    rewrite Hc. destruct (Nat.eqb pred label_);
      rewrite ?lookup_insert_eq, ?insert_insert_eq; reflexivity.
Qed.

Lemma tally_spec (idx_to_label : nat -> option string) (pairs : list (nat * nat)) :
  forall class_correct class_total cc ct,
    tally idx_to_label pairs class_correct class_total = inr (cc, ct) ->
    (forall k, is_Some (class_correct !! k) <-> is_Some (class_total !! k)) ->
    (forall k, default 0 (class_correct !! k) <= default 0 (class_total !! k)) ->
    (forall k v, class_total !! k = Some v -> 1 <= v) ->
    (forall k, is_Some (cc !! k) <-> is_Some (ct !! k)) /\
    (forall k, default 0 (cc !! k) <= default 0 (ct !! k)) /\
    (forall k v, ct !! k = Some v -> 1 <= v) /\
    sum_values ct = sum_values class_total + length pairs /\
    sum_values cc = sum_values class_correct + count_agree pairs /\
    (forall k, is_Some (ct !! k) <->
               is_Some (class_total !! k) \/
               exists pl, pl ∈ pairs /\ idx_to_label (snd pl) = Some k).
Proof.
  induction pairs as [|[p l] rest IH]; intros class_correct class_total cc ct.
  - simpl. intros [= <- <-] Hdom Hle Hpos. unfold count_agree. simpl.
    repeat (split; [first [assumption | lia]|]).
    intros k. split; [by left|]. intros [?|(pl & Hin & _)]; [done|].
    by apply elem_of_nil in Hin.
  - intros Htally Hdom Hle Hpos.
    destruct (idx_to_label l) as [name|] eqn:Hname;
      [|simpl in Htally; rewrite Hname in Htally; discriminate].
    rewrite (tally_step _ _ _ _ name _ _ Hname Hdom) in Htally.
    apply IH in Htally as (Hdom' & Hle' & Hpos' & Hst & Hsc & Hkeys).
    + split; [exact Hdom'|]. split; [exact Hle'|]. split; [exact Hpos'|].
      split; [|split].
      * rewrite Hst. pose proof (sum_values_insert class_total name
                                   (default 0 (class_total !! name) + 1)).
        simpl. lia.
      * rewrite Hsc. pose proof (sum_values_insert class_correct name
                                   (default 0 (class_correct !! name)
                                    + (if Nat.eqb p l then 1 else 0))).
        unfold count_agree in *. simpl.
        destruct (Nat.eqb_spec p l) as [->|Hne].
        -- rewrite filter_cons_True by done. simpl. lia.
        -- rewrite filter_cons_False by done. lia.
      * intros k. rewrite Hkeys. destruct (decide (name = k)) as [->|Hne].
        -- rewrite lookup_insert_eq. split; [|eauto].
           intros _. right. exists (p, l). split; [left | exact Hname].
        -- rewrite lookup_insert_ne by done. split.
           ++ intros [?|(pl & Hin & Hpl)]; [by left|].
              right. exists pl. split; [by right | exact Hpl].
           ++ intros [?|(pl & Hin & Hpl)]; [by left|].
              apply elem_of_cons in Hin as [->|Hin].
              { simpl in Hpl. congruence. }
              right. eauto.
    + intros k. destruct (decide (name = k)) as [->|Hne].
      * rewrite !lookup_insert_eq. split; eauto.
      * rewrite !lookup_insert_ne by done. apply Hdom.
    + intros k. destruct (decide (name = k)) as [->|Hne].
      * rewrite !lookup_insert_eq. simpl. specialize (Hle k).
        destruct (Nat.eqb p l); lia.
      * rewrite !lookup_insert_ne by done. apply Hle.
    + intros k v. destruct (decide (name = k)) as [->|Hne].
      * rewrite lookup_insert_eq. intros [= <-]. lia.
      * rewrite lookup_insert_ne by done. apply Hpos.
Qed.

Lemma elem_of_keys (d : gmap string nat) (k : string) :
  k ∈ (map_to_list d).*1 <-> is_Some (d !! k).
Proof.
  rewrite list_elem_of_fmap. split.
  - intros ([k' v] & -> & Hin). apply elem_of_map_to_list in Hin. eauto.
  - intros [v Hv]. exists (k, v). split; [reflexivity|].
    by apply elem_of_map_to_list.
Qed.

Lemma zip_labels (predicted labels : list nat) (l : nat) :
  length predicted = length labels ->
  l ∈ labels <-> exists pl, pl ∈ zip predicted labels /\ snd pl = l.
Proof.
  intros Hlen. split.
  - intros Hl. apply list_elem_of_lookup in Hl as [i Hi].
    destruct (lookup_lt_is_Some_2 predicted i) as [p Hp].
    { apply lookup_lt_Some in Hi. lia. }
    exists (p, l). split; [|reflexivity].
    apply list_elem_of_lookup. exists i.
    apply lookup_zip_with_Some. eauto.
  - intros ([p l'] & Hin & <-). simpl. by eapply elem_of_zip_r.
Qed.

(** X14.  The per-class report of [Trainer.evaluate] adds up: when the
    function returns, the class totals sum to the number of test samples
    and the class counts of correct predictions sum to the number of
    correct predictions behind the returned accuracy, which is their
    quotient in percent.  A class is listed exactly when a test sample
    carries its label, so every listed class has a total of at least 1,
    and never more correct predictions than samples; the lines are in the
    order of the class names, each name once. *)
Theorem class_report_adds_up `(N : Net) (new_model : list nat -> Model)
    (idx_to_label : nat -> option string) (fs : FS Weights)
    (acc : option Q) (rows : list (string * nat * nat)) :
  Trainer_evaluate new_model idx_to_label fs = inr (acc, rows) ->
  exists (checkpoint : Checkpoint Weights) (model : Model)
         (all_preds all_labels : list nat),
    fs !! "best_model.pth" = Some (CkptFile checkpoint) /\
    test_pass model [] [] test_loader = inr (all_preds, all_labels) /\
    length all_preds = length all_labels /\
    sum_list (List.map snd rows) = length all_labels /\
    sum_list (List.map (fun r => snd (fst r)) rows) = count_eq all_preds all_labels /\
    Forall (fun r => 1 <= snd r /\ snd (fst r) <= snd r) rows /\
    (forall name, name ∈ List.map (fun r => fst (fst r)) rows <->
                  exists l, l ∈ all_labels /\ idx_to_label l = Some name) /\
    StronglySorted String.le (List.map (fun r => fst (fst r)) rows) /\
    NoDup (List.map (fun r => fst (fst r)) rows) /\
    (forall a, acc = Some a ->
               (a == Qnat (sum_list (List.map (fun r => snd (fst r)) rows))
                     / Qnat (sum_list (List.map snd rows)) * 100)%Q).
Proof.
  unfold Trainer_evaluate.
  destruct (fs !! "best_model.pth") as [[checkpoint|h|r]|]; try discriminate.
  set (model := load_state_dict _ _).
  destruct (test_pass model [] [] test_loader) as [e|[ps ls]] eqn:Htest;
    simpl; [discriminate|].
  destruct (accuracy ps ls) as [e|acc'] eqn:Hacc; simpl; [discriminate|].
  destruct (tally idx_to_label (zip ps ls) ∅ ∅) as [e|[cc ct]] eqn:Htally;
    simpl; [discriminate|].
  intros [= <- <-].
  assert (Hlen : length ps = length ls).
  { unfold accuracy in Hacc.
    destruct (Nat.eqb_spec (length ps) (length ls)); [done | discriminate]. }
  apply tally_spec in Htally as (Hdom & Hle & Hpos & Hst & Hsc & Hkeys).
  2: { intros k. by rewrite !lookup_empty. }
  2: { intros k. by rewrite !lookup_empty. }
  2: { intros k v. by rewrite lookup_empty. }
  change (sum_values ∅) with 0 in Hst, Hsc. simpl in Hst, Hsc.
  rewrite length_zip, Hlen, Nat.min_id in Hst.
  rewrite <- count_eq_zip in Hsc.
  set (keys := merge_sort String.le (map_to_list ct).*1).
  assert (Hperm : keys ≡ₚ (map_to_list ct).*1) by apply merge_sort_Permutation.
  assert (Hnd : NoDup keys).
  { rewrite Hperm. apply NoDup_fst_map_to_list. }
  assert (Hperm' : keys ≡ₚ (map_to_list cc).*1).
  { apply NoDup_Permutation; [exact Hnd | apply NoDup_fst_map_to_list|].
    intros k. rewrite Hperm, !elem_of_keys. symmetry. apply Hdom. }
  assert (Hnames : List.map (fun r : string * nat * nat => fst (fst r))
                     (class_report cc ct) = keys).
  { unfold class_report. fold keys. rewrite List.map_map. simpl. apply List.map_id. }
  assert (Htot : List.map snd (class_report cc ct)
                 = List.map (fun k => default 0 (ct !! k)) keys).
  { unfold class_report. fold keys. by rewrite List.map_map. }
  assert (Hcor : List.map (fun r : string * nat * nat => snd (fst r))
                   (class_report cc ct)
                 = List.map (fun k => default 0 (cc !! k)) keys).
  { unfold class_report. fold keys. by rewrite List.map_map. }
  exists checkpoint, model, ps, ls.
  split; [reflexivity|]. split; [exact Htest|]. split; [exact Hlen|].
  rewrite Hnames, Htot, Hcor.
  rewrite (sum_over_keys ct keys Hperm), (sum_over_keys cc keys Hperm'), Hst, Hsc.
  split; [reflexivity|]. split; [reflexivity|]. split.
  { unfold class_report. fold keys. rewrite Forall_forall. intros r Hr.
    apply list_elem_of_In, List.in_map_iff in Hr as (k & <- & Hk). simpl.
    apply list_elem_of_In in Hk. rewrite Hperm, elem_of_keys in Hk.
    destruct Hk as [v Hv]. specialize (Hle k). rewrite Hv in *. simpl in *.
    split; [by eapply Hpos | exact Hle]. }
  split.
  { intros name. rewrite Hperm, elem_of_keys, Hkeys, lookup_empty. split.
    - intros [[? ?]|(pl & Hin & Hname)]; [done|].
      exists (snd pl). split; [|exact Hname].
      apply (zip_labels ps ls _ Hlen). eauto.
    - intros (l & Hl & Hname). right.
      apply (zip_labels ps ls _ Hlen) in Hl as (pl & Hin & <-). eauto. }
  split; [apply StronglySorted_merge_sort; apply _|]. split; [exact Hnd|].
  intros a ->. unfold accuracy in Hacc.
  destruct (Nat.eqb (length ps) (length ls)); simpl in Hacc; [|discriminate].
  destruct (Nat.eqb (length ps) 0); [discriminate|].
  injection Hacc as <-. rewrite Hlen. reflexivity.
Qed.

Lemma class_report_adds_up_witness :
  exists acc rows,
    @Trainer_evaluate _ scripted_ab (fun _ => 0)
      (fun l => if Nat.eqb l 1 then Some "b" else Some "a")
      ({["best_model.pth" := CkptFile (mkCheckpoint 0 1 100 (HiddenSizes [4]))]} : FS nat)
    = inr (acc, rows) /\
    sum_list (List.map snd rows) = 2 /\
    NoDup (List.map (fun r => fst (fst r)) rows).
Proof.
  eexists _, _.
  match goal with
  | |- ?run = ?r /\ _ => assert (Hrun : run = r) by (vm_compute; reflexivity)
  end.
  split; [exact Hrun|].
  destruct (class_report_adds_up _ _ _ _ _ _ Hrun)
    as (ck & m & ps & ls & _ & _ & _ & _ & _ & _ & _ & _ & Hnd & _).
  split; [vm_compute; reflexivity | exact Hnd].
Defined.

(** * [02_process_kaggle.py]: the records written for one class *)

Lemma reshape_1_21_3_spec (a b : ndarray) :
  reshape_1_21_3 a = inr b ->
  shape b = [1; 21; 3] /\ data b = data a /\ length (data b) = 63.
Proof.
  unfold reshape_1_21_3. destruct (Nat.eqb _ _) eqn:Hn; [|discriminate].
  intros [= <-]. apply Nat.eqb_eq in Hn. simpl. auto.
Qed.

Lemma landmarks_array_size (lms : list (Q * Q * Q)) :
  length (data (landmarks_array lms)) = 3 * length lms.
Proof.
  unfold landmarks_array. cbn [data].
  induction lms as [|lm lms IH]; [reflexivity|].
  cbn [List.map concat]. rewrite length_app, IH. cbn [length]. lia.
Qed.

Lemma slice_to_length {A : Type} (k : Z) (l : list A) :
  length (slice_to k l) <= length l /\
  (Z.of_nat (length (slice_to k l)) <= Z.max 0 k \/ k < 0)%Z.
Proof.
  unfold slice_to. rewrite length_take. destruct (Z.ltb_spec k 0); lia.
Qed.

Section ProcessorFacts.
Context `{E : Extractor}.

Lemma process_image_spec (img : Image) (lm : ndarray) (c : Q) :
  process_image img = inr (Some (lm, c)) ->
  shape lm = [1; 21; 3] /\ length (data lm) = 63.
Proof.
  unfold process_image. destruct (hands_process img) as [[lms score]|]; [|discriminate].
  simpl. destruct (reshape_1_21_3 _) as [e|a] eqn:Hr; simpl; [discriminate|].
  intros [= <- <-]. apply reshape_1_21_3_spec in Hr as (? & ? & ?). auto.
Qed.

Lemma process_images_spec (g src pre : string) (max_per_class : Z)
    (images : list Image) :
  forall (p : nat) (dir : gmap string KaggleData) r dir',
    process_images g src pre max_per_class images p dir = (r, dir') ->
    (forall name, is_Some (dir !! name) -> is_Some (dir' !! name)) /\
    (forall name d, dir' !! name = Some d ->
       dir !! name = Some d \/
       exists k, p <= k /\ k < p + length images /\ (forall n, r = inr n -> k < n) /\
                 name = pkl_name g k /\ kaggle_record g src pre k d) /\
    (forall n, r = inr n ->
       p <= n /\ n <= p + length images /\
       (Z.of_nat n <= Z.max (Z.of_nat p) max_per_class)%Z /\
       (forall k, p <= k -> k < n -> is_Some (dir' !! pkl_name g k))).
Proof.
  induction images as [|img rest IH]; intros p dir r dir'; cbn [process_images].
  - intros [= <- <-]. split; [auto|]. split; [auto|].
    intros n [= <-]. cbn [length]. split; [lia|]. split; [lia|]. split; [lia|]. intros k ? ?. lia.
  - destruct (Z.leb_spec max_per_class (Z.of_nat p)) as [Hcap|Hcap].
    { intros [= <- <-]. split; [auto|]. split; [auto|].
      intros n [= <-]. cbn [length]. split; [lia|]. split; [lia|]. split; [lia|]. intros k ? ?. lia. }
    destruct (process_image img) as [e|[[lm c]|]] eqn:Himg.
    + intros [= <- <-]. split; [auto|]. split; [auto|]. intros n [=].
    + intros Hrun. apply IH in Hrun as (Hkeep & Hfiles & Hn).
      split; [|split].
      * intros name Hs. apply Hkeep.
        destruct (decide (pkl_name g p = name)) as [<-|Hne].
        -- rewrite lookup_insert_eq. eauto.
        -- by rewrite lookup_insert_ne.
      * intros name d Hd. apply Hfiles in Hd as [Hd|(k & ? & ? & ? & -> & ?)].
        -- destruct (decide (pkl_name g p = name)) as [<-|Hne].
           ++ rewrite lookup_insert_eq in Hd. injection Hd as <-. right.
              exists p. cbn [length]. split; [lia|]. split; [lia|].
              split; [intros n Hr; apply Hn in Hr; lia|]. split; [reflexivity|].
              apply process_image_spec in Himg as (? & ?).
              unfold kaggle_record.
              cbn [kd_gloss kd_source kd_is_static kd_video_id kd_landmarks].
              repeat split; try reflexivity; assumption.
           ++ rewrite lookup_insert_ne in Hd by done. by left.
        -- right. exists k. cbn [length].
           split; [lia|]. split; [lia|]. split; [assumption|]. split; [reflexivity|assumption].
      * intros n Hr. destruct (Hn n Hr) as (? & ? & ? & Hex). cbn [length].
        split; [lia|]. split; [lia|]. split; [lia|].
        intros k Hk1 Hk2. destruct (decide (k = p)) as [->|Hne].
        -- apply Hkeep. rewrite lookup_insert_eq. eauto.
        -- apply Hex; lia.
    + intros Hrun. apply IH in Hrun as (Hkeep & Hfiles & Hn).
      split; [auto|]. split.
      * intros name d Hd. apply Hfiles in Hd as [Hd|(k & ? & ? & ? & -> & ?)]; [by left|].
        right. exists k. cbn [length].
        split; [lia|]. split; [lia|]. split; [assumption|]. split; [reflexivity|assumption].
      * intros n Hr. destruct (Hn n Hr) as (? & ? & ? & Hex). cbn [length].
        split; [lia|]. split; [lia|]. split; [lia|]. exact Hex.
Qed.

Lemma process_class_spec (g src pre : string) (max_per_class : Z)
    (images : list Image) r (dir : gmap string KaggleData) :
  process_class g src pre max_per_class images = (r, dir) ->
  (forall name d, dir !! name = Some d ->
     exists k, k < length images /\ (forall n, r = inr n -> k < n) /\
               name = pkl_name g k /\ kaggle_record g src pre k d) /\
  (forall n, r = inr n ->
     n <= length images /\ (Z.of_nat n <= Z.max 0 max_per_class)%Z /\
     (forall k, k < n -> is_Some (dir !! pkl_name g k))).
Proof.
  unfold process_class. intros Hrun.
  apply process_images_spec in Hrun as (_ & Hfiles & Hn).
  pose proof (slice_to_length (max_per_class * 2) images) as [Hlen _].
  split.
  - intros name d Hd. apply Hfiles in Hd as [Hd|(k & ? & ? & ? & ? & ?)].
    + by rewrite lookup_empty in Hd.
    + exists k. split; [lia|]. split; [assumption|]. split; assumption.
  - intros n Hr. destruct (Hn n Hr) as (? & ? & ? & Hex).
    split; [lia|]. split; [lia|]. intros k Hk. apply Hex; lia.
Qed.

End ProcessorFacts.

(** ** File names do not collide *)







Section ClassFacts.
Context `{E : Extractor}.


End ClassFacts.


Lemma load_files_all_load (g : string) (label_ : nat) (files : list PklFile)
    (acc : list Sample) :
  (forall f, f ∈ files -> exists s, load_sample g label_ f = inr s) ->
  length (load_files g label_ files acc) = length acc + length files.
Proof.
  revert acc. induction files as [|f files IH]; intros acc Hall; cbn [load_files].
  - cbn [length]. lia.
  - destruct (Hall f) as [s Hs]; [left|]. rewrite Hs, IH.
    + rewrite length_app. cbn [length]. lia.
    + intros f' Hf'. apply Hall. by right.
Qed.

Lemma kaggle_record_loads (g src pre : string) (k : nat) (d : KaggleData)
    (g' name : string) (label_ : nat) :
  kaggle_record g src pre k d ->
  exists s,
    load_sample g' label_ {| pf_name := name; pf_content := Some (as_pickle d) |} = inr s /\
    features s = data (kd_landmarks d) /\ length (features s) = 63 /\
    shape (landmarks s) = [21; 3] /\ source s = src.
Proof.
  intros (_ & Hsrc & _ & _ & Hshape & Hlen).
  unfold load_sample, as_pickle. cbn [pf_content p_landmarks p_source pf_name].
  rewrite Hshape. cbn [length Nat.eqb]. unfold getitem0. rewrite Hshape.
  cbn [Nat.eqb]. cbn [rbind]. eexists. split; [reflexivity|].
  cbn [features landmarks source flatten data shape default].
  assert (Ht : take (foldr Nat.mul 1 [21; 3]) (data (kd_landmarks d))
               = data (kd_landmarks d)).
  { apply take_ge. rewrite Hlen. cbn. lia. }
  rewrite Ht. auto.
Qed.

(** X16.  What the processor writes, the splitter reads: every record of
    a class directory written by the processor loads in [create_splits],
    whatever the class it is loaded for, with the 63 entries of its
    landmarks as features, a landmark array of shape (21, 3) and the source
    of the processor; so the records loaded from the directory are as many
    as the files in it. *)
Theorem written_records_load `(E : Extractor) (g src pre : string)
    (max_per_class : Z) (images : list Image) (r : result nat)
    (class_dir : gmap string KaggleData) (g' : string) (label_ : nat) :
  process_class g src pre max_per_class images = (r, class_dir) ->
  (forall f, f ∈ class_listing class_dir ->
     exists s d,
       class_dir !! pf_name f = Some d /\
       load_sample g' label_ f = inr s /\
       features s = data (kd_landmarks d) /\ length (features s) = 63 /\
       shape (landmarks s) = [21; 3] /\ source s = src /\
       gloss s = g' /\ label s = label_ /\ file s = pf_name f) /\
  length (load_files g' label_ (class_listing class_dir) []) = size class_dir.
Proof.
  intros Hrun.
  pose proof (process_class_spec _ _ _ _ _ _ _ Hrun) as (Hfiles & _).
  assert (Hall : forall f, f ∈ class_listing class_dir ->
     exists s d,
       class_dir !! pf_name f = Some d /\
       load_sample g' label_ f = inr s /\
       features s = data (kd_landmarks d) /\ length (features s) = 63 /\
       shape (landmarks s) = [21; 3] /\ source s = src /\
       gloss s = g' /\ label s = label_ /\ file s = pf_name f).
  { intros f Hf. unfold class_listing in Hf.
    apply list_elem_of_fmap in Hf as ([name d] & -> & Hd).
    apply elem_of_map_to_list in Hd. cbn [fst snd pf_name].
    destruct (Hfiles _ _ Hd) as (k & _ & _ & _ & Hrec).
    destruct (kaggle_record_loads _ _ _ _ _ g' name label_ Hrec)
      as (s & Hs & Hf1 & Hf2 & Hf3 & Hf4).
    exists s, d. pose proof (load_sample_fields _ _ _ _ Hs) as (? & ? & ?).
    repeat split; assumption. }
  split; [exact Hall|].
  rewrite load_files_all_load.
  - unfold class_listing. cbn [length]. rewrite length_map, length_map_to_list. lia.
  - intros f Hf. destruct (Hall f Hf) as (s & _ & _ & Hs & _). eauto.
Qed.


(** Five images, the fourth with a hand of 20 landmarks: the loop raises
    there, and the two records written before it load. *)
Lemma written_records_load_witness :
  fst (@process_class scripted_extractor "a" "kaggle_asl_alphabet" "kaggle_alphabet_" 5
         [1; 0; 2; 99; 4])
  = inl (ValueError "cannot reshape array of size 60 into shape (1,21,3)") /\
  length (load_files "a" 0
            (class_listing
               (snd (@process_class scripted_extractor "a" "kaggle_asl_alphabet"
                       "kaggle_alphabet_" 5 [1; 0; 2; 99; 4]))) [])
  = size (snd (@process_class scripted_extractor "a" "kaggle_asl_alphabet"
                 "kaggle_alphabet_" 5 [1; 0; 2; 99; 4])) /\
  size (snd (@process_class scripted_extractor "a" "kaggle_asl_alphabet"
               "kaggle_alphabet_" 5 [1; 0; 2; 99; 4])) = 2.
Proof.
  split; [vm_compute; reflexivity|]. split; [|vm_compute; reflexivity].
  destruct (@process_class scripted_extractor "a" "kaggle_asl_alphabet"
              "kaggle_alphabet_" 5 [1; 0; 2; 99; 4]) as [r class_dir] eqn:Hrun.
  cbn [snd].
  destruct (written_records_load scripted_extractor _ _ _ _ _ _ _ "a" 0 Hrun)
    as (_ & Hlen).
  exact Hlen.
Defined.

(** ** The statistics of a run and the class directories *)





Section RunFacts.
Context `{E : Extractor}.




End RunFacts.







(** ** [skip_cleaning], [run] and the stacked arrays of [03_create_splits.py] *)

Lemma load_files_length (g : string) (label_ : nat) (files : list PklFile)
    (acc : list Sample) :
  length (load_files g label_ files acc) <= length acc + length files.
Proof.
  rewrite load_files_app, length_app.
  assert (Hle : forall (f : PklFile -> option Sample) l, length (omap f l) <= length l).
  { intros f l. induction l as [|x l IH]; csimpl; [lia|].
    destruct (f x); csimpl; cbn [length]; lia. }
  apply Nat.add_le_mono_l, Hle.
Qed.

Lemma load_dirs_length `{L : StrLower} (dirs : list (string * list PklFile))
    (acc : list Sample) :
  length (load_dirs dirs acc)
  <= length acc + sum_list (List.map (fun d => length (snd d)) dirs).
Proof.
  revert acc. induction dirs as [|[name files] dirs IH]; intros acc;
    cbn [load_dirs List.map snd].
  - simpl. lia.
  - rewrite sum_list_cons.
    destruct (label_to_idx (str_lower name)) as [l|].
    + etrans; [apply IH|]. pose proof (load_files_length (str_lower name) l files acc).
      lia.
    + etrans; [apply IH|]. lia.
Qed.

Lemma skip_cleaning_fold `{L : StrLower} (dirs : list (string * list PklFile))
    (stats : CleanStats) :
  foldl (fun stats sign_dir =>
           {| kept_classes := kept_classes stats ++ [str_lower (fst sign_dir)];
              kept_samples := kept_samples stats + length (snd sign_dir) |})
    stats dirs
  = {| kept_classes := kept_classes stats ++ List.map (fun d => str_lower (fst d)) dirs;
       kept_samples := kept_samples stats
                       + sum_list (List.map (fun d => length (snd d)) dirs) |}.
Proof.
  revert stats. induction dirs as [|d dirs IH]; intros stats; cbn [foldl List.map].
  - simpl. rewrite app_nil_r, Nat.add_0_r. by destruct stats.
  - rewrite IH, sum_list_cons. cbn [kept_classes kept_samples].
    rewrite <- app_assoc. f_equal. lia.
Qed.

(** What a returning [create_splits] went through. *)
Lemma create_splits_inv `{L : StrLower} `{SK : Sklearn}
    (dirs : list (string * list PklFile)) (train_ratio val_ratio test_ratio : Q)
    (random_state : Z) (splits : Splits) (metadata : Metadata) :
  create_splits dirs train_ratio val_ratio test_ratio random_state
  = inr (splits, metadata) ->
  (exists a, split_arrays (train splits) = inr a) /\
  (exists a, split_arrays (val splits) = inr a) /\
  (exists a, split_arrays (test splits) = inr a) /\
  md_ratios metadata = (train_ratio, val_ratio, test_ratio).
Proof.
  unfold create_splits.
  destruct (split_indices _ _ _ _ _) as [e0|[[train_idx val_idx] test_idx]];
    simpl; [discriminate|].
  destruct (select _ train_idx) as [e1|train_]; simpl; [discriminate|].
  destruct (select _ val_idx) as [e2|val_]; simpl; [discriminate|].
  destruct (select _ test_idx) as [e3|test_]; simpl; [discriminate|].
  destruct (split_arrays train_) as [?|a1] eqn:A1; simpl; [discriminate|].
  destruct (split_arrays val_) as [?|a2] eqn:A2; simpl; [discriminate|].
  destruct (split_arrays test_) as [?|a3] eqn:A3; simpl; [discriminate|].
  destruct (report_split train_) as [?|n1]; simpl; [discriminate|].
  destruct (report_split val_) as [?|n2]; simpl; [discriminate|].
  destruct (report_split test_) as [?|n3]; simpl; [discriminate|].
  intros [= <- <-]. simpl. eauto 10.
Qed.

Lemma np_array_shapes (arrays : list ndarray) (a : ndarray) :
  np_array arrays = inr a ->
  forall b c, b ∈ arrays -> c ∈ arrays -> shape b = shape c.
Proof.
  unfold np_array. destruct arrays as [|a0 rest]; [intros _ b c Hb; by apply elem_of_nil in Hb|].
  destruct (forallb _ rest) eqn:Hall; [|discriminate].
  intros _.
  assert (Hfirst : forall b, b ∈ a0 :: rest -> shape b = shape a0).
  { intros b [->|Hb]%elem_of_cons; [reflexivity|].
    rewrite forallb_forall in Hall. apply list_elem_of_In in Hb.
    apply Hall in Hb. by apply bool_decide_eq_true in Hb. }
  intros b c Hb Hc. by rewrite (Hfirst b Hb), (Hfirst c Hc).
Qed.

Lemma split_arrays_shapes (split_data : list Sample) (a : ndarray * ndarray) :
  split_arrays split_data = inr a ->
  forall s1 s2, s1 ∈ split_data -> s2 ∈ split_data ->
    length (features s1) = length (features s2) /\
    shape (landmarks s1) = shape (landmarks s2).
Proof.
  unfold split_arrays.
  destruct (np_array (List.map _ split_data)) as [?|X] eqn:H1; simpl; [discriminate|].
  destruct (np_array (List.map landmarks split_data)) as [?|lm] eqn:H2;
    simpl; [discriminate|].
  intros _ s1 s2 Hs1 Hs2. split.
  - pose proof (np_array_shapes _ _ H1
                  {| shape := [length (features s1)]; data := features s1 |}
                  {| shape := [length (features s2)]; data := features s2 |}) as Heq.
    cbn [shape] in Heq. assert (Hinj : [length (features s1)] = [length (features s2)]).
    { apply Heq; apply list_elem_of_fmap; eauto. }
    by injection Hinj.
  - apply (np_array_shapes _ _ H2); apply list_elem_of_fmap; eauto.
Qed.

(** X19.  When [DatasetCleaner.run] returns, the statistics of
    [skip_cleaning] list every directory, by its lower-cased name, and
    count every [*.pkl] file, whether or not the directory is a target
    class and the file loads; so the number of samples that
    [create_splits] loaded is at most the number reported as kept.  The
    splits and the metadata are those of [create_splits] with the ratios
    0.7, 0.15, 0.15 and the seed 42. *)
Theorem kept_samples_bound_the_loaded (L : StrLower) (SK : Sklearn)
    (dirs : list (string * list PklFile)) (clean_stats : CleanStats)
    (splits : Splits) (metadata : Metadata) :
  DatasetCleaner_run dirs = inr (clean_stats, splits, metadata) ->
  kept_classes clean_stats = List.map (fun d => str_lower (fst d)) dirs /\
  kept_samples clean_stats = sum_list (List.map (fun d => length (snd d)) dirs) /\
  length (load_dirs dirs []) <= kept_samples clean_stats /\
  create_splits dirs (7 # 10) (15 # 100) (15 # 100) 42 = inr (splits, metadata) /\
  md_ratios metadata = ((7 # 10)%Q, (15 # 100)%Q, (15 # 100)%Q).
Proof.
  unfold DatasetCleaner_run.
  destruct (create_splits dirs _ _ _ _) as [e|[splits0 metadata0]] eqn:Hcs;
    simpl; [discriminate|].
  intros [= <- <- <-]. unfold skip_cleaning. rewrite skip_cleaning_fold.
  cbn [kept_classes kept_samples app Nat.add].
  split; [reflexivity|]. split; [reflexivity|].
  split; [apply (load_dirs_length dirs [])|]. split; [reflexivity|].
  by apply create_splits_inv in Hcs as (_ & _ & _ & Hr).
Qed.

(** X20.  Whenever [create_splits] returns, each of its three splits
    stacked into arrays: within a split all feature vectors have the same
    length and all landmark arrays the same shape (a split that mixes
    shapes makes [np.array] raise before anything is returned). *)
Theorem returned_splits_stack (L : StrLower) (SK : Sklearn)
    (dirs : list (string * list PklFile)) (train_ratio val_ratio test_ratio : Q)
    (random_state : Z) (splits : Splits) (metadata : Metadata) :
  create_splits dirs train_ratio val_ratio test_ratio random_state
  = inr (splits, metadata) ->
  forall part,
    part ∈ [train splits; val splits; test splits] ->
    forall s1 s2, s1 ∈ part -> s2 ∈ part ->
      length (features s1) = length (features s2) /\
      shape (landmarks s1) = shape (landmarks s2).
Proof.
  intros Hrun. apply create_splits_inv in Hrun as ([a1 H1] & [a2 H2] & [a3 H3] & _).
  intros part Hpart.
  repeat (apply elem_of_cons in Hpart as [->|Hpart];
          [by eapply split_arrays_shapes|]).
  by apply elem_of_nil in Hpart.
Qed.

Lemma kept_samples_bound_the_loaded_witness :
  exists clean_stats splits metadata,
    @DatasetCleaner_run ascii_names cut_sklearn
      (("notes", [mkPklFile "x.pkl" None]) :: two_classes)
    = inr (clean_stats, splits, metadata) /\
    kept_samples clean_stats = 21 /\
    length (@load_dirs ascii_names (("notes", [mkPklFile "x.pkl" None]) :: two_classes) [])
    <= kept_samples clean_stats.
Proof.
  eexists _, _, _.
  match goal with
  | |- ?run = ?r /\ _ => assert (Hrun : run = r) by (vm_compute; reflexivity)
  end.
  split; [exact Hrun|]. split; [reflexivity|].
  by destruct (kept_samples_bound_the_loaded _ _ _ _ _ _ Hrun) as (_ & _ & Hle & _).
Defined.

Lemma returned_splits_stack_witness :
  exists splits metadata,
    @create_splits ascii_names cut_sklearn two_classes (7 # 10) (15 # 100) (15 # 100) 42
    = inr (splits, metadata) /\
    forall s1 s2, s1 ∈ test splits -> s2 ∈ test splits ->
      length (features s1) = length (features s2) /\
      shape (landmarks s1) = shape (landmarks s2).
Proof.
  eexists _, _.
  match goal with
  | |- ?run = ?r /\ _ => assert (Hrun : run = r) by (vm_compute; reflexivity)
  end.
  split; [exact Hrun|].
  apply (returned_splits_stack _ _ _ _ _ _ _ _ _ Hrun). right. right. left.
Defined.
